(** * DiscordAlertsTrader: the Bybit client and the alert symbol extractor

    A shallow embedding of [src/bybit_api.py]: the class [BybitClient], a
    fail-soft facade over an exchange HTTP session, and the helper
    [parse_crypto_symbol], which pulls a trading symbol out of alert text with
    two regular expressions.

    - [Py] holds the Python values and built-ins the module touches.
    - [BybitClient] holds the methods, written in a state and exception monad
      over the session's state and a log of the calls made to the session.
    - [Interruptible] holds the same methods for a session that may also
      raise outside [Exception].
    - [Re] holds a backtracking matcher for the fragment of [re] used.
    - The theorems follow the definitions. *)

From Stdlib Require Import ZArith String List Ascii Bool Lia.
From Stdlib Require Import PrimFloat SpecFloat FloatOps DecimalString.
Import ListNotations.

Set Warnings "-register-all".

Open Scope string_scope.
Open Scope list_scope.

(** ** Python values and built-ins *)

Module Py.

(** The values that travel between the client, its callers and the session:
    JSON-like data. A [dict] keeps insertion order, as Python's does; its keys
    are strings (JSON objects and keyword arguments). [float] is IEEE
    binary64, the kernel's primitive float. *)
Inductive pyval : Type :=
| PNone
| PBool (b : bool)
| PInt (z : Z)
| PFloat (f : float)
| PStr (s : string)
| PList (l : list pyval)
| PDict (d : list (string * pyval)).

Definition dict : Type := list (string * pyval).

(** An instance of [Exception]: its class, and the value it was raised
    about. This is what [except Exception] catches. *)
Record exn : Type := Exc { exc_class : string; exc_arg : pyval }.

Inductive result (A : Type) : Type :=
| Ok (a : A)
| Raise (e : exn).
Arguments Ok {A} a.
Arguments Raise {A} e.

Definition KeyError (k : pyval) : exn := Exc "KeyError" k.
Definition IndexError (v : pyval) : exn := Exc "IndexError" v.
Definition TypeError (v : pyval) : exn := Exc "TypeError" v.
Definition ValueError (v : pyval) : exn := Exc "ValueError" v.
Definition AttributeError (v : pyval) : exn := Exc "AttributeError" v.
Definition OverflowError (v : pyval) : exn := Exc "OverflowError" v.

(** [d[k]] on a dict, as a lookup. *)
Fixpoint dict_lookup (k : string) (d : dict) : option pyval :=
  match d with
  | [] => None
  | (k', v) :: d' => if String.eqb k' k then Some v else dict_lookup k d'
  end.

(** [d[k] = v]: an existing key keeps its place, a new key goes last. *)
Fixpoint dict_setitem (k : string) (v : pyval) (d : dict) : dict :=
  match d with
  | [] => [(k, v)]
  | (k', v') :: d' =>
      if String.eqb k' k then (k', v) :: d' else (k', v') :: dict_setitem k v d'
  end.

(** [x[k]] with a string key [k]. *)
Definition getitem (x : pyval) (k : string) : result pyval :=
  match x with
  | PDict d =>
      match dict_lookup k d with
      | Some v => Ok v
      | None => Raise (KeyError (PStr k))
      end
  | _ => Raise (TypeError x)
  end.

(** [x[0]]. *)
Definition getitem0 (x : pyval) : result pyval :=
  match x with
  | PList (v :: _) => Ok v
  | PList [] => Raise (IndexError x)
  | PStr (String c _) => Ok (PStr (String c EmptyString))
  | PStr EmptyString => Raise (IndexError x)
  | PDict _ => Raise (KeyError (PInt 0))
  | _ => Raise (TypeError x)
  end.

(** [x.get(k, default)]: only a dict has the method. *)
Definition get (x : pyval) (k : string) (default : pyval) : result pyval :=
  match x with
  | PDict d =>
      match dict_lookup k d with
      | Some v => Ok v
      | None => Ok default
      end
  | _ => Raise (AttributeError x)
  end.

Fixpoint chars (s : string) : list pyval :=
  match s with
  | EmptyString => []
  | String c s' => PStr (String c EmptyString) :: chars s'
  end.

(** [iter(x)], taken to the end: what a [for] would see. *)
Definition iterate (x : pyval) : result (list pyval) :=
  match x with
  | PList l => Ok l
  | PDict d => Ok (map (fun kv => PStr (fst kv)) d)
  | PStr s => Ok (chars s)
  | _ => Raise (TypeError x)
  end.

(** [f != 0.0], the truth value of a float: a NaN is true. *)
Definition float_truthy (f : float) : bool := negb (PrimFloat.eqb f 0%float).

(** [bool(x)]. *)
Definition truthy (x : pyval) : bool :=
  match x with
  | PNone => false
  | PBool b => b
  | PInt z => negb (Z.eqb z 0)
  | PFloat f => float_truthy f
  | PStr s => negb (String.eqb s "")
  | PList l => match l with [] => false | _ => true end
  | PDict d => match d with [] => false | _ => true end
  end.

(** [x == s] for a string [s]: only an equal string is equal to it. *)
Definition eq_str (x : pyval) (s : string) : bool :=
  match x with
  | PStr s' => String.eqb s' s
  | _ => false
  end.

(** [float(z)] for an int: round to nearest, ties to even; [OverflowError]
    past the largest finite double. *)
Definition float_of_int (z : Z) : result float :=
  let f := SF2Prim (binary_normalize 53 1024 z 0 false) in
  if PrimFloat.eqb (PrimFloat.abs f) infinity
  then Raise (OverflowError (PInt z))
  else Ok f.

(** [str(z)] for an int. *)
Definition str_of_int (z : Z) : string := NilZero.string_of_int (Z.to_int z).

Section Builtins.

(** The interpreter's parsing of a float is a parameter: [float(s)] on a
    string, [None] where it raises [ValueError]. *)
Variable float_of_str : string -> option float.

(** [float(x)]. *)
Definition to_float (x : pyval) : result float :=
  match x with
  | PFloat f => Ok f
  | PInt z => float_of_int z
  | PBool b => Ok (if b then 1%float else 0%float)
  | PStr s =>
      match float_of_str s with
      | Some f => Ok f
      | None => Raise (ValueError x)
      end
  | _ => Raise (TypeError x)
  end.

End Builtins.

End Py.

(** ** The client *)

Module BybitClient.
Import Py.

(** One call made to the session: the method, its keyword arguments, and
    what came back (an answer, or the exception raised). *)
Record call : Type :=
  Call { call_method : string; call_kwargs : dict; call_outcome : result pyval }.

Section WithSession.

(** The state of whatever stands behind the session (the exchange, the
    network). *)
Variable St : Type.

(** The underlying [pybit] session, an external collaborator: each method
    takes its keyword arguments, answers or raises, and may change the
    state behind it. *)
Record Session : Type := {
  get_wallet_balance_ : dict -> St -> result pyval * St;
  get_positions_ : dict -> St -> result pyval * St;
  place_order_ : dict -> St -> result pyval * St;
  cancel_order_ : dict -> St -> result pyval * St;
  get_tickers_ : dict -> St -> result pyval * St;
  get_order_history_ : dict -> St -> result pyval * St;
  set_leverage_ : dict -> St -> result pyval * St
}.

(** What a method of the client runs in: the state behind the session and
    the calls issued to the session so far, oldest first. *)
Record world : Type := World { exchange : St; calls : list call }.

(** A computation answers or raises, and leaves a world either way: an
    exception does not undo the calls already made. *)
Definition M (A : Type) : Type := world -> result A * world.

Definition ret {A} (a : A) : M A := fun w => (Ok a, w).

Definition bind {A B} (c : M A) (k : A -> M B) : M B :=
  fun w =>
    match c w with
    | (Ok a, w') => k a w'
    | (Raise e, w') => (Raise e, w')
    end.

(** A pure step that may raise. *)
Definition lift {A} (r : result A) : M A := fun w => (r, w).

(** [try: c  except Exception as e: h e]. *)
Definition try_except {A} (c : M A) (h : exn -> M A) : M A :=
  fun w =>
    match c w with
    | (Ok a, w') => (Ok a, w')
    | (Raise e, w') => h e w'
    end.

(** [self.session.<name>(...)] with keyword arguments: the call is logged,
    then answered. *)
Definition invoke (name : string) (method : dict -> St -> result pyval * St)
    (kwargs : dict) : M pyval :=
  fun w =>
    let (r, st') := method kwargs (exchange w) in
    (r, World st' (calls w ++ [Call name kwargs r])).

Notation "x <- c ;; k" := (bind c (fun x => k))
  (at level 61, c at next level, right associativity).

(** [self.session], and the interpreter's conversions: [float(s)] on a
    string ([None] where it raises [ValueError]), [str(f)] on a float, and
    [str(e)] on an exception. *)
Variable session : Session.
Variable float_of_str : string -> option float.
Variable str_of_float : float -> string.
Variable str_of_exn : exn -> string.

(** [{"error": str(e)}] *)
Definition error_dict (msg : string) : pyval := PDict [("error", PStr msg)].

(** An argument declared [Optional[float]], as a value. *)
Definition opt_float (x : option float) : pyval :=
  match x with
  | Some f => PFloat f
  | None => PNone
  end.

(** [str(x)] for such an argument. *)
Definition str_of_opt_float (x : option float) : string :=
  match x with
  | Some f => str_of_float f
  | None => "None"
  end.

(** An argument declared [Optional[str]], as a value. *)
Definition opt_str (x : option string) : pyval :=
  match x with
  | Some s => PStr s
  | None => PNone
  end.

Definition get_account_info : M pyval :=
  try_except
    (response <- invoke "get_wallet_balance" (get_wallet_balance_ session)
                   [("accountType", PStr "UNIFIED")] ;;
     ret response)
    (fun e => ret (PDict [])).

Definition get_positions (category : string) : M pyval :=
  try_except
    (response <- invoke "get_positions" (get_positions_ session)
                   [("category", PStr category); ("settleCoin", PStr "USDT")] ;;
     result <- lift (get response "result" (PDict [])) ;;
     lift (get result "list" (PList [])))
    (fun e => ret (PList [])).

Definition place_order (symbol side order_type : string) (qty : float)
    (price stop_loss take_profit : option float)
    (category time_in_force : string) : M pyval :=
  try_except
    (let order_params :=
       [("category", PStr category);
        ("symbol", PStr symbol);
        ("side", PStr side);
        ("orderType", PStr order_type);
        ("qty", PStr (str_of_float qty));
        ("timeInForce", PStr time_in_force)] in
     let order_params :=
       if String.eqb order_type "Limit" && truthy (opt_float price)
       then dict_setitem "price" (PStr (str_of_opt_float price)) order_params
       else order_params in
     let order_params :=
       if truthy (opt_float stop_loss)
       then dict_setitem "stopLoss" (PStr (str_of_opt_float stop_loss)) order_params
       else order_params in
     let order_params :=
       if truthy (opt_float take_profit)
       then dict_setitem "takeProfit" (PStr (str_of_opt_float take_profit)) order_params
       else order_params in
     response <- invoke "place_order" (place_order_ session) order_params ;;
     ret response)
    (fun e => ret (error_dict (str_of_exn e))).

(** [next((p for p in positions if p['symbol'] == symbol), None)] over the
    items of [positions]: the first item that passes, the entries after
    it are not looked at. *)
Fixpoint next_match (items : list pyval) (symbol : string) : result pyval :=
  match items with
  | [] => Ok PNone
  | p :: rest =>
      match getitem p "symbol" with
      | Raise e => Raise e
      | Ok v => if eq_str v symbol then Ok p else next_match rest symbol
      end
  end.

Definition close_position (symbol category : string) : M pyval :=
  try_except
    (positions <- get_positions category ;;
     items <- lift (iterate positions) ;;
     position <- lift (next_match items symbol) ;;
     nothing_held <-
       (if negb (truthy position) then ret true
        else
          size <- lift (get position "size" (PInt 0)) ;;
          f <- lift (to_float float_of_str size) ;;
          ret (PrimFloat.eqb f 0%float)) ;;
     if (nothing_held : bool) then ret (error_dict "No open position")
     else
       held <- lift (getitem position "side") ;;
       let side := if eq_str held "Buy" then "Sell" else "Buy" in
       size <- lift (getitem position "size") ;;
       f <- lift (to_float float_of_str size) ;;
       let qty := PrimFloat.abs f in
       place_order symbol side "Market" qty None None None category "GTC")
    (fun e => ret (error_dict (str_of_exn e))).

Definition cancel_order (order_id symbol category : string) : M pyval :=
  try_except
    (response <- invoke "cancel_order" (cancel_order_ session)
                   [("category", PStr category);
                    ("symbol", PStr symbol);
                    ("orderId", PStr order_id)] ;;
     ret response)
    (fun e => ret (error_dict (str_of_exn e))).

Definition get_ticker_price (symbol category : string) : M pyval :=
  try_except
    (response <- invoke "get_tickers" (get_tickers_ session)
                   [("category", PStr category); ("symbol", PStr symbol)] ;;
     result <- lift (get response "result" (PDict [])) ;;
     ticker <- lift (get result "list" (PList [])) ;;
     if truthy ticker then
       first <- lift (getitem0 ticker) ;;
       last_price <- lift (get first "lastPrice" (PInt 0)) ;;
       f <- lift (to_float float_of_str last_price) ;;
       ret (PFloat f)
     else ret PNone)
    (fun e => ret PNone).

Definition get_order_history (symbol : option string) (category : string)
    (limit : Z) : M pyval :=
  try_except
    (let params := [("category", PStr category); ("limit", PInt limit)] in
     let params :=
       if truthy (opt_str symbol)
       then dict_setitem "symbol" (opt_str symbol) params
       else params in
     response <- invoke "get_order_history" (get_order_history_ session) params ;;
     result <- lift (get response "result" (PDict [])) ;;
     lift (get result "list" (PList [])))
    (fun e => ret (PList [])).

Definition set_leverage (symbol : string) (buy_leverage sell_leverage : Z)
    (category : string) : M pyval :=
  try_except
    (response <- invoke "set_leverage" (set_leverage_ session)
                   [("category", PStr category);
                    ("symbol", PStr symbol);
                    ("buyLeverage", PStr (str_of_int buy_leverage));
                    ("sellLeverage", PStr (str_of_int sell_leverage))] ;;
     ret response)
    (fun e => ret (error_dict (str_of_exn e))).

End WithSession.

Arguments World {St} exchange calls.
Arguments exchange {St} w.
Arguments calls {St} w.
Arguments ret {St A} a w.
Arguments bind {St A B} c k w.
Arguments lift {St A} r w.
Arguments try_except {St A} c h w.
Arguments invoke {St} name method kwargs w.
Arguments get_account_info {St} session w.
Arguments get_positions {St} session category w.
Arguments place_order {St} session str_of_float str_of_exn symbol side
  order_type qty price stop_loss take_profit category time_in_force w.
Arguments close_position {St} session float_of_str str_of_float str_of_exn
  symbol category w.
Arguments cancel_order {St} session str_of_exn order_id symbol category w.
Arguments get_ticker_price {St} session float_of_str symbol category w.
Arguments get_order_history {St} session symbol category limit w.
Arguments set_leverage {St} session str_of_exn symbol buy_leverage
  sell_leverage category w.

End BybitClient.

(** ** The fragment of [re] that the symbol extractor uses *)

Module Re.

(** Text is a string of code points below 256, one [ascii] each. *)

Definition code (c : ascii) : nat := nat_of_ascii c.

Definition between (lo hi n : nat) : bool := Nat.leb lo n && Nat.leb n hi.

(** [\w] on a str pattern: alphanumeric or underscore. Below 256 these are
    the ASCII digits and letters, the underscore, and the letters and
    numeric signs of Latin-1. *)
Definition is_word (c : ascii) : bool :=
  let n := code c in
  between 48 57 n || between 65 90 n || Nat.eqb n 95 || between 97 122 n
  || Nat.eqb n 170 || between 178 179 n || Nat.eqb n 181
  || between 185 186 n || between 188 190 n
  || between 192 214 n || between 216 246 n || between 248 255 n.

(** The lower-case mapping that [re.IGNORECASE] compares under. *)
Definition lower (c : ascii) : ascii :=
  let n := code c in
  if between 65 90 n || (between 192 222 n && negb (Nat.eqb n 215))
  then ascii_of_nat (n + 32)
  else c.

(** [str.upper], character by character, on ASCII text: the group captured
    by the patterns below holds ASCII letters only. *)
Definition upper_char (c : ascii) : ascii :=
  let n := code c in
  if between 97 122 n then ascii_of_nat (n - 32) else c.

Fixpoint upper (s : string) : string :=
  match s with
  | EmptyString => EmptyString
  | String c s' => String (upper_char c) (upper s')
  end.

(** The pattern syntax in use: literals, a character set, sequence,
    alternation, the greedy [?], the capture group (the patterns have one)
    and [\b]. *)
Inductive regex : Type :=
| Chr (c : ascii)
| Cls (cs : list ascii)
| Cat (r1 r2 : regex)
| Alt (r1 r2 : regex)
| Opt (r : regex)
| Group (r : regex)
| WordB.

(** A literal word: its characters in sequence, the last one not followed
    by anything. *)
Fixpoint lit (c : ascii) (w : string) : regex :=
  match w with
  | EmptyString => Chr c
  | String c' w' => Cat (Chr c) (lit c' w')
  end.

(** A word of the pattern; the empty word matches the empty string. *)
Definition word (w : string) : regex :=
  match w with
  | EmptyString => Opt (Cls [])
  | String c w' => lit c w'
  end.

(** The span of group 1, when it took part in the match. *)
Definition span : Type := option (nat * nat).

Section Matching.

Variable text : string.

Definition same_letter (c d : ascii) : bool := Ascii.eqb (lower c) (lower d).

(** [\b] at position [i]: exactly one of the characters before and after
    is a word character; off either end counts as not a word character. *)
Definition word_at (i : nat) : bool :=
  match String.get i text with
  | Some c => is_word c
  | None => false
  end.

Definition boundary (i : nat) : bool :=
  xorb (match i with 0 => false | S j => word_at j end) (word_at i).

(** The backtracking matcher, with [re.IGNORECASE]: [run r i g k] matches
    [r] from position [i] with group span [g], and hands the end position
    and the span to [k]; when [k] fails the next alternative is tried,
    in the order [re] tries them. *)
Fixpoint run {R : Type} (r : regex) (i : nat) (g : span)
    (k : nat -> span -> option R) : option R :=
  match r with
  | Chr c =>
      match String.get i text with
      | Some d => if same_letter c d then k (S i) g else None
      | None => None
      end
  | Cls cs =>
      match String.get i text with
      | Some d => if existsb (fun c => same_letter c d) cs then k (S i) g else None
      | None => None
      end
  | Cat r1 r2 => run r1 i g (fun j g' => run r2 j g' k)
  | Alt r1 r2 =>
      match run r1 i g k with
      | Some x => Some x
      | None => run r2 i g k
      end
  | Opt r1 =>
      match run r1 i g k with
      | Some x => Some x
      | None => k i g
      end
  | Group r1 => run r1 i g (fun j _ => k j (Some (i, j)))
  | WordB => if boundary i then k i g else None
  end.

(** A match object: where the match starts and ends, and group 1. *)
Record match_object : Type :=
  Match { m_start : nat; m_end : nat; m_group1 : span }.

(** [pattern.match] anchored at position [i]. *)
Definition match_at (r : regex) (i : nat) : option match_object :=
  run r i None (fun j g => Some (Match i j g)).

(** Positions [i], [i+1], ... are tried in turn, [n] more after [i]. *)
Fixpoint search_from (r : regex) (i n : nat) : option match_object :=
  match match_at r i with
  | Some m => Some m
  | None =>
      match n with
      | 0 => None
      | S n' => search_from r (S i) n'
      end
  end.

(** [re.search(r, text, re.IGNORECASE)]: the leftmost position where a
    match starts, from 0 to the end of the text included. *)
Definition search (r : regex) : option match_object :=
  search_from r 0 (String.length text).

(** [m.group(1)]: the text under the span, [None] if the group took no
    part. *)
Definition group1 (m : match_object) : option string :=
  match m_group1 m with
  | Some (a, b) => Some (String.substring a (b - a) text)
  | None => None
  end.

End Matching.

End Re.

(** ** The symbol extractor *)

Import Py Re.

Definition base_assets : list string :=
  ["BTC"; "ETH"; "SOL"; "DOGE"; "XRP"; "ADA"; "MATIC"; "AVAX"; "DOT"; "LINK"].

(** [(BTC|ETH|SOL|DOGE|XRP|ADA|MATIC|AVAX|DOT|LINK)] *)
Definition base_group : regex :=
  Group (Alt (word "BTC") (Alt (word "ETH") (Alt (word "SOL") (Alt (word "DOGE")
        (Alt (word "XRP") (Alt (word "ADA") (Alt (word "MATIC") (Alt (word "AVAX")
        (Alt (word "DOT") (word "LINK")))))))))).

(** [USDT?\b] *)
Definition quote : regex := Cat (word "USD") (Cat (Opt (Chr "T"%char)) WordB).

(** [[/\-]?USDT?\b] *)
Definition quote_tail : regex := Cat (Opt (Cls ["/"%char; "-"%char])) quote.

(** [\b(BTC|...|LINK)[/\-]?USDT?\b] *)
Definition pattern1 : regex := Cat WordB (Cat base_group quote_tail).

(** [\b(BTC|...|LINK)\b] *)
Definition pattern2 : regex := Cat WordB (Cat base_group WordB).

Definition patterns : list regex := [pattern1; pattern2].

(** The loop over the patterns: the first one that matches decides. A missing
    group would make [.upper()] raise on [None]. *)
Fixpoint first_match (ps : list regex) (alert_text : string) : result (option string) :=
  match ps with
  | [] => Ok None
  | pattern :: rest =>
      match search alert_text pattern with
      | Some m =>
          match group1 alert_text m with
          | Some g => let symbol := upper g in Ok (Some (symbol ++ "USDT")%string)
          | None => Raise (AttributeError PNone)
          end
      | None => first_match rest alert_text
      end
  end.

Definition parse_crypto_symbol (alert_text : string) : result (option string) :=
  first_match patterns alert_text.


(** ** Vocabulary of the statements *)

Import BybitClient.

Section Vocabulary.

Context {St : Type}.

(** The public operations of the client, each with its arguments. *)
Inductive operation : Type :=
| GetAccountInfo
| GetPositions (category : string)
| PlaceOrder (symbol side order_type : string) (qty : float)
    (price stop_loss take_profit : option float) (category time_in_force : string)
| ClosePosition (symbol category : string)
| CancelOrder (order_id symbol category : string)
| GetTickerPrice (symbol category : string)
| GetOrderHistory (symbol : option string) (category : string) (limit : Z)
| SetLeverage (symbol : string) (buy_leverage sell_leverage : Z) (category : string).

Variable session : Session St.
Variable float_of_str : string -> option float.
Variable str_of_float : float -> string.
Variable str_of_exn : exn -> string.

Definition perform (op : operation) : M St pyval :=
  match op with
  | GetAccountInfo => get_account_info session
  | GetPositions category => get_positions session category
  | PlaceOrder symbol side order_type qty price stop_loss take_profit category tif =>
      place_order session str_of_float str_of_exn symbol side order_type qty
        price stop_loss take_profit category tif
  | ClosePosition symbol category =>
      close_position session float_of_str str_of_float str_of_exn symbol category
  | CancelOrder order_id symbol category =>
      cancel_order session str_of_exn order_id symbol category
  | GetTickerPrice symbol category =>
      get_ticker_price session float_of_str symbol category
  | GetOrderHistory symbol category limit =>
      get_order_history session symbol category limit
  | SetLeverage symbol buy_leverage sell_leverage category =>
      set_leverage session str_of_exn symbol buy_leverage sell_leverage category
  end.

End Vocabulary.



(** The orders submitted so far: the calls to the session's [place_order]. *)
Definition orders (cs : list call) : list call :=
  filter (fun c => String.eqb (call_method c) "place_order") cs.

(** A position mapping for another symbol: it has a symbol field, and that
    field is not [symbol]. *)
Definition other_symbol (symbol : string) (p : pyval) : Prop :=
  exists d v, p = PDict d /\ dict_lookup "symbol" d = Some v /\ v <> PStr symbol.

(** A position mapping whose symbol field is exactly [symbol]. *)
Definition for_symbol (symbol : string) (p : pyval) : Prop :=
  exists d, p = PDict d /\ dict_lookup "symbol" d = Some (PStr symbol).

(** [p] is the entry of [items] that matches [symbol]: the first one. *)
Definition matching_entry (symbol : string) (items : list pyval) (p : pyval) : Prop :=
  exists before after,
    items = before ++ p :: after /\
    Forall (other_symbol symbol) before /\
    for_symbol symbol p.

(** The size field of [p] converts to the float [f]. *)
Definition size_of (float_of_str : string -> option float) (p : pyval) (f : float) : Prop :=
  exists d v, p = PDict d /\ dict_lookup "size" d = Some v /\ to_float float_of_str v = Ok f.

(** The side field of [p] holds [held]. *)
Definition side_of (p held : pyval) : Prop :=
  exists d, p = PDict d /\ dict_lookup "side" d = Some held.

(** ** The methods as functions of what the session did *)

(** [response.get('result', {}).get('list', [])] under the [try]: what
    [get_positions] and [get_order_history] return for an outcome of their
    query. *)
Definition fetched (r : result pyval) : pyval :=
  match r with
  | Ok resp =>
      match get resp "result" (PDict []) with
      | Ok res =>
          match get res "list" (PList []) with
          | Ok l => l
          | Raise _ => PList []
          end
      | Raise _ => PList []
      end
  | Raise _ => PList []
  end.

(** What [get_ticker_price] returns for an outcome of its query. *)
Definition priced (float_of_str : string -> option float) (r : result pyval) : pyval :=
  match r with
  | Ok resp =>
      match get resp "result" (PDict []) with
      | Ok res =>
          match get res "list" (PList []) with
          | Ok ticker =>
              if truthy ticker then
                match getitem0 ticker with
                | Ok first =>
                    match get first "lastPrice" (PInt 0) with
                    | Ok last_price =>
                        match to_float float_of_str last_price with
                        | Ok f => PFloat f
                        | Raise _ => PNone
                        end
                    | Raise _ => PNone
                    end
                | Raise _ => PNone
                end
              else PNone
          | Raise _ => PNone
          end
      | Raise _ => PNone
      end
  | Raise _ => PNone
  end.

(** The answer passed on as it is, an exception turned into [failure]. *)
Definition softened (failure : exn -> pyval) (r : result pyval) : pyval :=
  match r with
  | Ok resp => resp
  | Raise e => failure e
  end.

(** The keyword arguments of the [get_positions] query. *)
Definition positions_query (category : string) : dict :=
  [("category", PStr category); ("settleCoin", PStr "USDT")].

(** The keyword arguments of a closing order. *)
Definition closing_order (str_of_float : float -> string)
    (symbol side category : string) (qty : float) : dict :=
  [("category", PStr category);
   ("symbol", PStr symbol);
   ("side", PStr side);
   ("orderType", PStr "Market");
   ("qty", PStr (str_of_float qty));
   ("timeInForce", PStr "GTC")].

(** The response [resp] carries [items] under [result.list]. *)
Definition lists (resp : pyval) (items : list pyval) : Prop :=
  exists d res,
    resp = PDict d /\
    dict_lookup "result" d = Some (PDict res) /\
    dict_lookup "list" res = Some (PList items).

(** The positions of a book that are settled in [coin]; a book pairs each
    position with its settlement coin. *)
Definition settled (coin : string) (book : list (string * pyval)) : list pyval :=
  map snd (filter (fun e => String.eqb (fst e) coin) book).

(** A session whose position query honours the settlement-coin filter: it
    answers with the positions of the book settled in the coin asked for. *)
Definition honours_settle_coin {St : Type} (session : Session St)
    (book : St -> list (string * pyval)) : Prop :=
  forall kwargs st coin,
    dict_lookup "settleCoin" kwargs = Some (PStr coin) ->
    exists resp st',
      get_positions_ St session kwargs st = (Ok resp, st') /\
      lists resp (settled coin (book st)).

(** ** Sample collaborators, to run the client on *)

Module Sample.

Definition float_of_Z (z : Z) : float := SF2Prim (binary_normalize 53 1024 z 0 false).

Definition digit (c : ascii) : option Z :=
  let n := nat_of_ascii c in
  if between 48 57 n then Some (Z.of_nat (n - 48)) else None.

(** Digits with at most one point among them: the digits as an integer, and
    how many of them follow the point. *)
Fixpoint scan (s : string) (m : Z) (frac : option nat) (any : bool) : option (Z * nat) :=
  match s with
  | EmptyString =>
      if any then Some (m, match frac with Some k => k | None => 0 end) else None
  | String c s' =>
      if Ascii.eqb c "."%char then
        match frac with
        | None => scan s' m (Some 0) any
        | Some _ => None
        end
      else
        match digit c with
        | Some d => scan s' (10 * m + d)%Z (option_map S frac) true
        | None => None
        end
  end.

(** [float(s)] on a plain decimal with an integer below 2^53 over a power
    of ten up to 10^22: both are doubles, and their quotient is the
    correctly rounded value. Every other string is refused here. *)
Definition float_of_str (s : string) : option float :=
  match scan s 0 None false with
  | Some (m, k) =>
      if (m <? 2 ^ 53)%Z && Nat.leb k 22
      then Some (float_of_Z m / float_of_Z (10 ^ Z.of_nat k))%float
      else None
  | None => None
  end.

(** Drop the zeros at the end of [n / 10^k]. *)
Fixpoint strip (fuel : nat) (n : Z) (k : nat) : Z * nat :=
  match fuel, k with
  | S fuel', S k' => if (n mod 10 =? 0)%Z then strip fuel' (n / 10)%Z k' else (n, k)
  | _, _ => (n, k)
  end.

(** [k] digits of [n], the leading zeros included. *)
Fixpoint fraction (k : nat) (n : Z) (acc : string) : string :=
  match k with
  | 0 => acc
  | S k' =>
      fraction k' (n / 10)%Z
        (String (ascii_of_nat (48 + Z.to_nat (n mod 10))) acc)
  end.

(** [str(f)] as the exact decimal expansion of [f]: what Python prints when
    that expansion is short (15 significant digits or fewer, and no
    exponent form). *)
Definition str_of_float (f : float) : string :=
  match Prim2SF f with
  | S754_zero s => if s then "-0.0" else "0.0"
  | S754_infinity s => if s then "-inf" else "inf"
  | S754_nan => "nan"
  | S754_finite s m e =>
      let (n, k) :=
        if (0 <=? e)%Z then ((Z.pos m * 2 ^ e)%Z, 0%nat)
        else strip (Z.to_nat (- e)) (Z.pos m * 5 ^ (- e))%Z (Z.to_nat (- e)) in
      ((if s then "-" else "")
       ++ str_of_int (n / 10 ^ Z.of_nat k)
       ++ "."
       ++ (match k with 0 => "0" | _ => fraction k (n mod 10 ^ Z.of_nat k) "" end))%string
  end.

(** [str(e)], as the name of the class. *)
Definition str_of_exn (e : exn) : string := exc_class e.

(** An exchange over a book of positions: the position query filters by
    settlement coin, every order is acknowledged, nothing raises. *)
Definition book : Type := list (string * pyval).

Definition answer (fields : dict) : pyval :=
  PDict [("retCode", PInt 0); ("retMsg", PStr "OK"); ("result", PDict fields)].

Definition asked_coin (kwargs : dict) : string :=
  match dict_lookup "settleCoin" kwargs with
  | Some (PStr coin) => coin
  | _ => ""
  end.

Definition exchange : Session book := {|
  get_wallet_balance_ := fun _ st => (Ok (answer [("list", PList [])]), st);
  get_positions_ := fun kwargs st =>
    (Ok (answer [("list", PList (settled (asked_coin kwargs) st))]), st);
  place_order_ := fun _ st => (Ok (answer [("orderId", PStr "1")]), st);
  cancel_order_ := fun _ st => (Ok (answer [("orderId", PStr "1")]), st);
  get_tickers_ := fun _ st =>
    (Ok (answer [("list", PList [PDict [("symbol", PStr "BTCUSDT");
                                        ("lastPrice", PStr "64000.5")]])]), st);
  get_order_history_ := fun _ st => (Ok (answer [("list", PList [])]), st);
  set_leverage_ := fun _ st => (Ok (answer []), st)
|}.



Definition position (symbol side size : string) : pyval :=
  PDict [("symbol", PStr symbol); ("side", PStr side); ("size", PStr size)].

(** A long BTCUSDT position of 0.5 and a flat ETHUSDT one, settled in USDT;
    a short BTCUSD position of 2, settled in BTC. *)
Definition a_book : book :=
  [("USDT", position "ETHUSDT" "" "0");
   ("USDT", position "BTCUSDT" "Buy" "0.5");
   ("BTC", position "BTCUSD" "Sell" "2")].

Definition start : world book := World a_book [].

End Sample.

(** ** The extractor, described by the tokens it looks for *)

Section Tokens.

Variable text : string.

(** The word [w] is written at position [i], in either case. *)
Fixpoint spelled (i : nat) (w : string) : bool :=
  match w with
  | EmptyString => true
  | String c w' =>
      match String.get i text with
      | Some d => same_letter c d && spelled (S i) w'
      | None => false
      end
  end.

(** The base asset written at position [i], if one is. *)
Definition base_at (i : nat) : option string :=
  find (spelled i) base_assets.

Definition separator_at (i : nat) : bool :=
  match String.get i text with
  | Some d => Ascii.eqb d "/"%char || Ascii.eqb d "-"%char
  | None => false
  end.

(** A quote asset, USDT or USD, written at [j] and ending a word. *)
Definition quote_at (j : nat) : bool :=
  spelled j "USD" &&
  ((spelled (j + 3) "T" && boundary text (j + 4)) || boundary text (j + 3)).

(** A base asset that starts a word at [i] and carries a quote asset, next
    to it or after one separator. *)
Definition quoted_token_at (i : nat) : option string :=
  if boundary text i then
    match base_at i with
    | Some b =>
        let j := i + String.length b in
        if quote_at (if separator_at j then S j else j) then Some b else None
    | None => None
    end
  else None.

(** A base asset that is a whole word at [i]. *)
Definition bare_token_at (i : nat) : option string :=
  if boundary text i then
    match base_at i with
    | Some b => if boundary text (i + String.length b) then Some b else None
    | None => None
    end
  else None.

(** The token found at the first of the positions [i], [i+1], ..., [i+n]
    that has one. *)
Fixpoint leftmost (token_at : nat -> option string) (i n : nat) : option string :=
  match token_at i with
  | Some b => Some b
  | None =>
      match n with
      | 0 => None
      | S n' => leftmost token_at (S i) n'
      end
  end.

(** The leftmost quoted token decides; without one, the leftmost bare
    token does. *)
Definition deciding_token : option string :=
  match leftmost quoted_token_at 0 (String.length text) with
  | Some b => Some b
  | None => leftmost bare_token_at 0 (String.length text)
  end.

End Tokens.

(** Every character there is. *)
Definition all_chars : list ascii := map ascii_of_nat (seq 0 256).

(** Two words that agree, letter for letter, as far as the shorter goes. *)
Fixpoint agree (w1 w2 : string) : bool :=
  match w1, w2 with
  | String a w1', String b w2' => same_letter a b && agree w1' w2'
  | _, _ => true
  end.

Definition capital (c : ascii) : bool := between 65 90 (code c).

Fixpoint capitals (w : string) : bool :=
  match w with
  | EmptyString => true
  | String c w' => capital c && capitals w'
  end.

(** ** Vocabulary of the further properties *)

(** An entry without a symbol field. *)
Definition lacks_symbol (p : pyval) : Prop :=
  exists d, p = PDict d /\ dict_lookup "symbol" d = None.

(** An optional amount as [place_order] sends it: left out when it is absent
    or zero, else its [str]. *)
Definition sent (str_of_float : float -> string) (x : option float) : option pyval :=
  match x with
  | Some f => if PrimFloat.eqb f 0%float then None else Some (PStr (str_of_float f))
  | None => None
  end.

(** The session method an operation calls first. *)
Definition first_method (op : operation) : string :=
  match op with
  | GetAccountInfo => "get_wallet_balance"
  | GetPositions _ => "get_positions"
  | PlaceOrder _ _ _ _ _ _ _ _ _ => "place_order"
  | ClosePosition _ _ => "get_positions"
  | CancelOrder _ _ _ => "cancel_order"
  | GetTickerPrice _ _ => "get_tickers"
  | GetOrderHistory _ _ _ => "get_order_history"
  | SetLeverage _ _ _ _ => "set_leverage"
  end.

(** The operations that hand the session's answer on as it is. *)
Definition passes_answer_on (op : operation) : bool :=
  match op with
  | GetAccountInfo | PlaceOrder _ _ _ _ _ _ _ _ _
  | CancelOrder _ _ _ | SetLeverage _ _ _ _ => true
  | _ => false
  end.

(** The operations that can submit an order. *)
Definition trades (op : operation) : bool :=
  match op with
  | PlaceOrder _ _ _ _ _ _ _ _ _ | ClosePosition _ _ => true
  | _ => false
  end.

(** An exchange as [Sample.exchange], whose ticker carries no last price. *)
Definition no_last_price : Session Sample.book := {|
  get_wallet_balance_ := get_wallet_balance_ _ Sample.exchange;
  get_positions_ := get_positions_ _ Sample.exchange;
  place_order_ := place_order_ _ Sample.exchange;
  cancel_order_ := cancel_order_ _ Sample.exchange;
  get_tickers_ := fun _ st =>
    (Ok (Sample.answer [("list", PList [PDict [("symbol", PStr "BTCUSDT")]])]), st);
  get_order_history_ := get_order_history_ _ Sample.exchange;
  set_leverage_ := set_leverage_ _ Sample.exchange
|}.

(** A world whose book holds the given positions, all settled in USDT. *)
Definition holding (positions : list pyval) : world Sample.book :=
  World (map (fun p => ("USDT", p)) positions) [].

(** Two texts that differ in the case of their letters at most. *)
Fixpoint same_text (x y : string) : bool :=
  match x, y with
  | EmptyString, EmptyString => true
  | String c x', String d y' => same_letter c d && same_text x' y'
  | _, _ => false
  end.

(** A text made of word characters only: one word. *)
Fixpoint all_word (s : string) : bool :=
  match s with
  | EmptyString => true
  | String c s' => is_word c && all_word s'
  end.

(** ** The client under a session that may also raise outside [Exception]

    [BybitClient] above takes what the session raises to be instances of
    [Exception]. Python also has exceptions that are not: [KeyboardInterrupt],
    [SystemExit] and [GeneratorExit] derive from [BaseException] directly, and
    [except Exception] does not catch them. Here the session may raise
    either kind, and the handlers test the class as the source does. The
    methods are the same eight, over the same values and built-ins. *)

Module Interruptible.

(** What a [raise] throws: an instance of [Exception], or an instance of
    [BaseException] that is not one. *)
Inductive thrown : Type :=
| AnException (e : exn)
| SystemExiting (e : exn).

Inductive outcome (A : Type) : Type :=
| Returns (a : A)
| Raises (t : thrown).
Arguments Returns {A} a.
Arguments Raises {A} t.

(** One call made to the session, with what came back. *)
Record call : Type :=
  Call { call_method : string; call_kwargs : dict; call_outcome : outcome pyval }.

Section WithSession.

Variable St : Type.

Record Session : Type := {
  get_wallet_balance_ : dict -> St -> outcome pyval * St;
  get_positions_ : dict -> St -> outcome pyval * St;
  place_order_ : dict -> St -> outcome pyval * St;
  cancel_order_ : dict -> St -> outcome pyval * St;
  get_tickers_ : dict -> St -> outcome pyval * St;
  get_order_history_ : dict -> St -> outcome pyval * St;
  set_leverage_ : dict -> St -> outcome pyval * St
}.

Record world : Type := World { exchange : St; calls : list call }.

Definition M (A : Type) : Type := world -> outcome A * world.

Definition ret {A} (a : A) : M A := fun w => (Returns a, w).

Definition bind {A B} (c : M A) (k : A -> M B) : M B :=
  fun w =>
    match c w with
    | (Returns a, w') => k a w'
    | (Raises t, w') => (Raises t, w')
    end.

(** A step of the interpreter: what it raises is an instance of
    [Exception] ([KeyError], [TypeError], [ValueError], ...). *)
Definition lift {A} (r : result A) : M A :=
  fun w =>
    match r with
    | Ok a => (Returns a, w)
    | Raise e => (Raises (AnException e), w)
    end.

(** [try: c  except Exception as e: h e]: an instance of [Exception] goes
    to the handler, anything else goes on to the caller. *)
Definition try_except {A} (c : M A) (h : exn -> M A) : M A :=
  fun w =>
    match c w with
    | (Returns a, w') => (Returns a, w')
    | (Raises (AnException e), w') => h e w'
    | (Raises (SystemExiting e), w') => (Raises (SystemExiting e), w')
    end.

Definition invoke (name : string) (method : dict -> St -> outcome pyval * St)
    (kwargs : dict) : M pyval :=
  fun w =>
    let (r, st') := method kwargs (exchange w) in
    (r, World st' (calls w ++ [Call name kwargs r])).

Notation "x <- c ;; k" := (bind c (fun x => k))
  (at level 61, c at next level, right associativity).

Variable session : Session.
Variable float_of_str : string -> option float.
Variable str_of_float : float -> string.
Variable str_of_exn : exn -> string.

Definition get_account_info : M pyval :=
  try_except
    (response <- invoke "get_wallet_balance" (get_wallet_balance_ session)
                   [("accountType", PStr "UNIFIED")] ;;
     ret response)
    (fun e => ret (PDict [])).

Definition get_positions (category : string) : M pyval :=
  try_except
    (response <- invoke "get_positions" (get_positions_ session)
                   [("category", PStr category); ("settleCoin", PStr "USDT")] ;;
     result <- lift (get response "result" (PDict [])) ;;
     lift (get result "list" (PList [])))
    (fun e => ret (PList [])).

Definition place_order (symbol side order_type : string) (qty : float)
    (price stop_loss take_profit : option float)
    (category time_in_force : string) : M pyval :=
  try_except
    (let order_params :=
       [("category", PStr category);
        ("symbol", PStr symbol);
        ("side", PStr side);
        ("orderType", PStr order_type);
        ("qty", PStr (str_of_float qty));
        ("timeInForce", PStr time_in_force)] in
     let order_params :=
       if String.eqb order_type "Limit" && truthy (opt_float price)
       then dict_setitem "price"
              (PStr (str_of_opt_float str_of_float price)) order_params
       else order_params in
     let order_params :=
       if truthy (opt_float stop_loss)
       then dict_setitem "stopLoss"
              (PStr (str_of_opt_float str_of_float stop_loss)) order_params
       else order_params in
     let order_params :=
       if truthy (opt_float take_profit)
       then dict_setitem "takeProfit"
              (PStr (str_of_opt_float str_of_float take_profit)) order_params
       else order_params in
     response <- invoke "place_order" (place_order_ session) order_params ;;
     ret response)
    (fun e => ret (error_dict (str_of_exn e))).

Definition close_position (symbol category : string) : M pyval :=
  try_except
    (positions <- get_positions category ;;
     items <- lift (iterate positions) ;;
     position <- lift (next_match items symbol) ;;
     nothing_held <-
       (if negb (truthy position) then ret true
        else
          size <- lift (get position "size" (PInt 0)) ;;
          f <- lift (to_float float_of_str size) ;;
          ret (PrimFloat.eqb f 0%float)) ;;
     if (nothing_held : bool) then ret (error_dict "No open position")
     else
       held <- lift (getitem position "side") ;;
       let side := if eq_str held "Buy" then "Sell" else "Buy" in
       size <- lift (getitem position "size") ;;
       f <- lift (to_float float_of_str size) ;;
       let qty := PrimFloat.abs f in
       place_order symbol side "Market" qty None None None category "GTC")
    (fun e => ret (error_dict (str_of_exn e))).

Definition cancel_order (order_id symbol category : string) : M pyval :=
  try_except
    (response <- invoke "cancel_order" (cancel_order_ session)
                   [("category", PStr category);
                    ("symbol", PStr symbol);
                    ("orderId", PStr order_id)] ;;
     ret response)
    (fun e => ret (error_dict (str_of_exn e))).

Definition get_ticker_price (symbol category : string) : M pyval :=
  try_except
    (response <- invoke "get_tickers" (get_tickers_ session)
                   [("category", PStr category); ("symbol", PStr symbol)] ;;
     result <- lift (get response "result" (PDict [])) ;;
     ticker <- lift (get result "list" (PList [])) ;;
     if truthy ticker then
       first <- lift (getitem0 ticker) ;;
       last_price <- lift (get first "lastPrice" (PInt 0)) ;;
       f <- lift (to_float float_of_str last_price) ;;
       ret (PFloat f)
     else ret PNone)
    (fun e => ret PNone).

Definition get_order_history (symbol : option string) (category : string)
    (limit : Z) : M pyval :=
  try_except
    (let params := [("category", PStr category); ("limit", PInt limit)] in
     let params :=
       if truthy (opt_str symbol)
       then dict_setitem "symbol" (opt_str symbol) params
       else params in
     response <- invoke "get_order_history" (get_order_history_ session) params ;;
     result <- lift (get response "result" (PDict [])) ;;
     lift (get result "list" (PList [])))
    (fun e => ret (PList [])).

Definition set_leverage (symbol : string) (buy_leverage sell_leverage : Z)
    (category : string) : M pyval :=
  try_except
    (response <- invoke "set_leverage" (set_leverage_ session)
                   [("category", PStr category);
                    ("symbol", PStr symbol);
                    ("buyLeverage", PStr (str_of_int buy_leverage));
                    ("sellLeverage", PStr (str_of_int sell_leverage))] ;;
     ret response)
    (fun e => ret (error_dict (str_of_exn e))).

(** A public operation, run. *)
Definition perform (op : operation) : M pyval :=
  match op with
  | GetAccountInfo => get_account_info
  | GetPositions category => get_positions category
  | PlaceOrder symbol side order_type qty price stop_loss take_profit category tif =>
      place_order symbol side order_type qty price stop_loss take_profit category tif
  | ClosePosition symbol category => close_position symbol category
  | CancelOrder order_id symbol category => cancel_order order_id symbol category
  | GetTickerPrice symbol category => get_ticker_price symbol category
  | GetOrderHistory symbol category limit => get_order_history symbol category limit
  | SetLeverage symbol buy_leverage sell_leverage category =>
      set_leverage symbol buy_leverage sell_leverage category
  end.

End WithSession.

Arguments World {St} exchange calls.
Arguments exchange {St} w.
Arguments calls {St} w.
Arguments ret {St A} a w.
Arguments bind {St A B} c k w.
Arguments lift {St A} r w.
Arguments try_except {St A} c h w.
Arguments invoke {St} name method kwargs w.
Arguments get_account_info {St} session w.
Arguments get_positions {St} session category w.
Arguments place_order {St} session str_of_float str_of_exn symbol side
  order_type qty price stop_loss take_profit category time_in_force w.
Arguments close_position {St} session float_of_str str_of_float str_of_exn
  symbol category w.
Arguments cancel_order {St} session str_of_exn order_id symbol category w.
Arguments get_ticker_price {St} session float_of_str symbol category w.
Arguments get_order_history {St} session symbol category limit w.
Arguments set_leverage {St} session str_of_exn symbol buy_leverage
  sell_leverage category w.
Arguments perform {St} session float_of_str str_of_float str_of_exn op w.



(** A session of [BybitClient], as a session here: what it raises are
    instances of [Exception]. *)
Definition of_result {A : Type} (r : result A) : outcome A :=
  match r with
  | Ok v => Returns v
  | Raise e => Raises (AnException e)
  end.

Definition of_method {St : Type} (m : dict -> St -> result pyval * St)
    (kwargs : dict) (st : St) : outcome pyval * St :=
  (of_result (fst (m kwargs st)), snd (m kwargs st)).

Definition of_session {St : Type} (s : BybitClient.Session St) : Session St := {|
  get_wallet_balance_ := of_method (BybitClient.get_wallet_balance_ St s);
  get_positions_ := of_method (BybitClient.get_positions_ St s);
  place_order_ := of_method (BybitClient.place_order_ St s);
  cancel_order_ := of_method (BybitClient.cancel_order_ St s);
  get_tickers_ := of_method (BybitClient.get_tickers_ St s);
  get_order_history_ := of_method (BybitClient.get_order_history_ St s);
  set_leverage_ := of_method (BybitClient.set_leverage_ St s)
|}.


Definition start : world Sample.book := World Sample.a_book [].

(** What an operation makes of the outcome of its one call: [handled] says
    what it returns for an answer and for an instance of [Exception]; any
    other exception goes on to the caller. *)
Definition settle (handled : result pyval -> pyval) (o : outcome pyval) : outcome pyval :=
  match o with
  | Returns v => Returns (handled (Ok v))
  | Raises (AnException e) => Returns (handled (Raise e))
  | Raises (SystemExiting b) => Raises (SystemExiting b)
  end.

(** A world of [BybitClient], as a world here. *)
Definition of_call (c : BybitClient.call) : call :=
  Call (BybitClient.call_method c) (BybitClient.call_kwargs c)
       (of_result (BybitClient.call_outcome c)).

Definition of_world {St : Type} (w : BybitClient.world St) : world St :=
  World (BybitClient.exchange w) (map of_call (BybitClient.calls w)).

Definition of_run {St A : Type} (r : result A * BybitClient.world St)
    : outcome A * world St :=
  (of_result (fst r), of_world (snd r)).

(** A computation here does what a computation of [BybitClient] does. *)
Definition agrees {St A : Type} (c' : M St A) (c : BybitClient.M St A) : Prop :=
  forall w, c' (of_world w) = of_run (c w).

End Interruptible.

(** * The client: what the methods do *)

Section ClientFacts.

Context {St : Type}.
Variable session : Session St.
Variable float_of_str : string -> option float.
Variable str_of_float : float -> string.
Variable str_of_exn : exn -> string.

Lemma get_positions_run category w :
  get_positions session category w =
    (Ok (fetched (fst (get_positions_ St session (positions_query category) (exchange w)))),
     World (snd (get_positions_ St session (positions_query category) (exchange w)))
           (calls w ++ [Call "get_positions" (positions_query category)
                          (fst (get_positions_ St session (positions_query category) (exchange w)))])).
Proof.
  unfold get_positions, try_except, bind, invoke, lift, ret, positions_query, fetched.
  destruct (get_positions_ St session _ (exchange w)) as [[resp|e] st']; simpl; auto.
  destruct (get resp "result" (PDict [])) as [res|e]; simpl; auto.
  destruct (get res "list" (PList [])) as [l|e]; simpl; auto.
Qed.

Lemma place_order_run symbol side order_type qty price stop_loss take_profit category tif w :
  exists kwargs,
    place_order session str_of_float str_of_exn symbol side order_type qty
      price stop_loss take_profit category tif w =
      (Ok (match fst (place_order_ St session kwargs (exchange w)) with
           | Ok resp => resp
           | Raise e => error_dict (str_of_exn e)
           end),
       World (snd (place_order_ St session kwargs (exchange w)))
             (calls w ++ [Call "place_order" kwargs
                            (fst (place_order_ St session kwargs (exchange w)))]))
    /\ (String.eqb order_type "Limit" && truthy (opt_float price) = false ->
        dict_lookup "price" kwargs = None)
    /\ (stop_loss = None -> take_profit = None ->
        String.eqb order_type "Limit" && truthy (opt_float price) = false ->
        kwargs = [("category", PStr category); ("symbol", PStr symbol);
                  ("side", PStr side); ("orderType", PStr order_type);
                  ("qty", PStr (str_of_float qty)); ("timeInForce", PStr tif)]).
Proof.
  unfold place_order, try_except, bind, invoke, ret.
  set (kw := if truthy (opt_float take_profit) then _ else _).
  exists kw. split; [|split].
  - destruct (place_order_ St session kw (exchange w)) as [[resp|e] st']; reflexivity.
  - intros H. subst kw. rewrite H.
    destruct (truthy (opt_float stop_loss)), (truthy (opt_float take_profit)); reflexivity.
  - intros -> -> H. subst kw. rewrite H. reflexivity.
Qed.


Lemma eq_str_true v s : eq_str v s = true <-> v = PStr s.
Proof.
  destruct v; simpl; split; intros H; try discriminate.
  - apply String.eqb_eq in H. now subst.
  - inversion H. apply String.eqb_refl.
Qed.

Lemma eq_str_false v s : v <> PStr s -> eq_str v s = false.
Proof.
  intros H. destruct (eq_str v s) eqn:E; auto.
  apply eq_str_true in E. contradiction.
Qed.

Lemma next_match_skips symbol before rest :
  Forall (other_symbol symbol) before ->
  next_match (before ++ rest) symbol = next_match rest symbol.
Proof.
  induction 1 as [|p before [d [v [-> [Hs Hne]]]] _ IH]; simpl; auto.
  rewrite Hs, (eq_str_false _ _ Hne). exact IH.
Qed.

Lemma next_match_none symbol items :
  Forall (other_symbol symbol) items -> next_match items symbol = Ok PNone.
Proof.
  intros H. rewrite <- (app_nil_r items). now rewrite next_match_skips.
Qed.

Lemma next_match_found symbol items p :
  matching_entry symbol items p -> next_match items symbol = Ok p.
Proof.
  intros [before [after [-> [Hb [d [-> Hs]]]]]].
  rewrite next_match_skips by assumption. simpl.
  rewrite Hs. simpl. now rewrite String.eqb_refl.
Qed.

Lemma for_symbol_truthy symbol p : for_symbol symbol p -> truthy p = true.
Proof.
  intros [d [-> Hs]]. destruct d; [discriminate|reflexivity].
Qed.

Lemma orders_app cs cs' : orders (cs ++ cs') = orders cs ++ orders cs'.
Proof. apply filter_app. Qed.

Lemma close_position_nothing_held symbol category w items w1 :
  get_positions session category w = (Ok (PList items), w1) ->
  (Forall (other_symbol symbol) items \/
   exists p, matching_entry symbol items p /\
             exists f, size_of float_of_str p f /\ PrimFloat.eqb f 0%float = true) ->
  close_position session float_of_str str_of_float str_of_exn symbol category w =
    (Ok (error_dict "No open position"), w1).
Proof.
  intros Hget Hcase.
  unfold close_position, try_except, bind at 1. rewrite Hget.
  unfold bind, lift, ret. simpl.
  destruct Hcase as [Hnone | [p [Hp [f [[d [v [-> [Hsz Hf]]]] Hz]]]]].
  - rewrite (next_match_none _ _ Hnone). reflexivity.
  - rewrite (next_match_found _ _ _ Hp).
    destruct Hp as [bf [af [_ [_ Hfs]]]].
    rewrite (for_symbol_truthy _ _ Hfs). simpl.
    rewrite Hsz. simpl. rewrite Hf. simpl. rewrite Hz. reflexivity.
Qed.

(** C1. When the positions fetched by [close_position] hold no entry for
    [symbol] (every entry is a position mapping for another symbol), or the
    entry that matches has a size that converts to zero, [close_position]
    returns [{"error": "No open position"}]; the only call made to the session
    is the position query, so no order is submitted. *)
Theorem close_position_no_open_position symbol category w items w1 :
  get_positions session category w = (Ok (PList items), w1) ->
  (Forall (other_symbol symbol) items \/
   exists p, matching_entry symbol items p /\
             exists f, size_of float_of_str p f /\ PrimFloat.eqb f 0%float = true) ->
  close_position session float_of_str str_of_float str_of_exn symbol category w =
    (Ok (error_dict "No open position"), w1)
  /\ calls w1 = calls w ++ [Call "get_positions" (positions_query category)
                              (fst (get_positions_ St session (positions_query category) (exchange w)))]
  /\ orders (calls w1) = orders (calls w).
Proof.
  intros Hget Hcase.
  assert (Hcalls : calls w1 = calls w ++ [Call "get_positions" (positions_query category)
                              (fst (get_positions_ St session (positions_query category) (exchange w)))]).
  { rewrite get_positions_run in Hget. inversion Hget. reflexivity. }
  split; [|split]; auto.
  - now apply close_position_nothing_held with (items := items).
  - rewrite Hcalls, orders_app. simpl. now rewrite app_nil_r.
Qed.

Lemma close_position_closes symbol category w items w1 d size f held :
  get_positions session category w = (Ok (PList items), w1) ->
  matching_entry symbol items (PDict d) ->
  dict_lookup "size" d = Some size ->
  to_float float_of_str size = Ok f ->
  PrimFloat.eqb f 0%float = false ->
  dict_lookup "side" d = Some held ->
  close_position session float_of_str str_of_float str_of_exn symbol category w =
    place_order session str_of_float str_of_exn symbol
      (if eq_str held "Buy" then "Sell" else "Buy") "Market" (PrimFloat.abs f)
      None None None category "GTC" w1.
Proof.
  intros Hget Hp Hsz Hf Hnz Hside.
  unfold close_position, try_except, bind at 1. rewrite Hget.
  unfold bind, lift, ret. simpl.
  rewrite (next_match_found _ _ _ Hp).
  destruct Hp as [bf [af [_ [_ Hfs]]]].
  rewrite (for_symbol_truthy _ _ Hfs). simpl.
  rewrite Hsz. simpl. rewrite Hf. simpl. rewrite Hnz. simpl. rewrite Hside. simpl.
  destruct (place_order _ _ _ _ _ _ _ _ _ _ _ _ w1) as [[v|e] w2] eqn:E; auto.
  destruct (place_order_run symbol (if eq_str held "Buy" then "Sell" else "Buy")
              "Market" (PrimFloat.abs f) None None None category "GTC" w1)
    as [kw [Hrun _]].
  rewrite Hrun in E. discriminate.
Qed.

Lemma closing_order_run symbol side category qty w1 :
  place_order session str_of_float str_of_exn symbol side "Market" qty
    None None None category "GTC" w1 =
    (Ok (match fst (place_order_ St session (closing_order str_of_float symbol side category qty) (exchange w1)) with
         | Ok resp => resp
         | Raise e => error_dict (str_of_exn e)
         end),
     World (snd (place_order_ St session (closing_order str_of_float symbol side category qty) (exchange w1)))
           (calls w1 ++ [Call "place_order" (closing_order str_of_float symbol side category qty)
                           (fst (place_order_ St session (closing_order str_of_float symbol side category qty) (exchange w1)))])).
Proof.
  destruct (place_order_run symbol side "Market" qty None None None category "GTC" w1)
    as [kw [Hrun [_ Hkw]]].
  rewrite Hrun. rewrite (Hkw eq_refl eq_refl eq_refl). reflexivity.
Qed.

(** C2. With a matching entry whose size [f] is not zero and whose side is
    Buy or Sell, [close_position] is one call of [place_order] for a Market
    order on the opposite side (Buy gives Sell, Sell gives Buy) with quantity
    [abs f]: it returns what [place_order] returns, the session's answer as it
    is or the error mapping of the exception, and the calls to the session's
    [place_order] grow by exactly that order. *)
Theorem close_position_opposite_market_order
    symbol category w items w1 p f held closing :
  get_positions session category w = (Ok (PList items), w1) ->
  matching_entry symbol items p ->
  size_of float_of_str p f ->
  PrimFloat.eqb f 0%float = false ->
  side_of p (PStr held) ->
  In (held, closing) [("Buy", "Sell"); ("Sell", "Buy")] ->
  let order := closing_order str_of_float symbol closing category (PrimFloat.abs f) in
  let answer := place_order_ St session order (exchange w1) in
  let done := close_position session float_of_str str_of_float str_of_exn symbol category w in
  done = place_order session str_of_float str_of_exn symbol closing "Market"
           (PrimFloat.abs f) None None None category "GTC" w1
  /\ fst done = Ok (match fst answer with
                    | Ok resp => resp
                    | Raise e => error_dict (str_of_exn e)
                    end)
  /\ calls (snd done) =
       calls w ++ [Call "get_positions" (positions_query category)
                     (fst (get_positions_ St session (positions_query category) (exchange w)));
                   Call "place_order" order (fst answer)]
  /\ orders (calls (snd done)) = orders (calls w) ++ [Call "place_order" order (fst answer)].
Proof.
  intros Hget Hp [d [size [-> [Hsz Hf]]]] Hnz [d' [Hd Hside]] Hin order answer done.
  inversion Hd; subst d'; clear Hd.
  assert (Hcalls : calls w1 = calls w ++ [Call "get_positions" (positions_query category)
                              (fst (get_positions_ St session (positions_query category) (exchange w)))]).
  { rewrite get_positions_run in Hget. inversion Hget. reflexivity. }
  assert (Hdone : done = place_order session str_of_float str_of_exn symbol closing
                           "Market" (PrimFloat.abs f) None None None category "GTC" w1).
  { subst done. rewrite (close_position_closes _ _ _ _ _ _ _ _ _ Hget Hp Hsz Hf Hnz Hside).
    destruct Hin as [H|[H|[]]]; inversion H; subst; reflexivity. }
  split; [exact Hdone|].
  rewrite Hdone, closing_order_run. fold order. fold answer. simpl.
  rewrite Hcalls, <- app_assoc. simpl.
  repeat split. rewrite orders_app. reflexivity.
Qed.

(** C10. With a matching entry of nonzero size whose side field holds any
    value [held], the closing order is submitted with side Sell exactly when
    [held] is the string "Buy", and with side Buy for every other value. *)
Theorem closing_side_sell_only_for_buy symbol category w items w1 p f held :
  get_positions session category w = (Ok (PList items), w1) ->
  matching_entry symbol items p ->
  size_of float_of_str p f ->
  PrimFloat.eqb f 0%float = false ->
  side_of p held ->
  exists closing outcome,
    calls (snd (close_position session float_of_str str_of_float str_of_exn symbol category w)) =
      calls w1 ++ [Call "place_order"
                     (closing_order str_of_float symbol closing category (PrimFloat.abs f))
                     outcome]
    /\ (closing = "Sell" <-> held = PStr "Buy")
    /\ (held <> PStr "Buy" -> closing = "Buy").
Proof.
  intros Hget Hp [d [size [-> [Hsz Hf]]]] Hnz [d' [Hd Hside]].
  inversion Hd; subst d'; clear Hd.
  rewrite (close_position_closes _ _ _ _ _ _ _ _ _ Hget Hp Hsz Hf Hnz Hside).
  rewrite closing_order_run. simpl.
  eexists. eexists. split; [reflexivity|].
  destruct (eq_str held "Buy") eqn:E.
  - apply eq_str_true in E. subst held. split; [tauto|]. intros H. now elim H.
  - split; [|reflexivity]. split; [discriminate|].
    intros ->. simpl in E. discriminate.
Qed.


Lemma place_order_total symbol side order_type qty price stop_loss take_profit category tif w :
  (let (r, w') := place_order session str_of_float str_of_exn symbol side order_type
                    qty price stop_loss take_profit category tif w in
   match r with
   | Ok a => (Ok a, w')
   | Raise e => (Ok (error_dict (str_of_exn e)), w')
   end) =
  place_order session str_of_float str_of_exn symbol side order_type
    qty price stop_loss take_profit category tif w.
Proof.
  destruct (place_order_run symbol side order_type qty price stop_loss take_profit
              category tif w) as [kw [Hrun _]].
  rewrite Hrun. reflexivity.
Qed.

Lemma get_account_info_run w :
  let out := get_wallet_balance_ St session [("accountType", PStr "UNIFIED")] (exchange w) in
  get_account_info session w =
    (Ok (softened (fun _ => PDict []) (fst out)),
     World (snd out)
           (calls w ++ [Call "get_wallet_balance" [("accountType", PStr "UNIFIED")] (fst out)])).
Proof.
  unfold get_account_info, try_except, bind, invoke, ret. simpl.
  destruct (get_wallet_balance_ St session _ (exchange w)) as [[resp|e] st']; reflexivity.
Qed.

Lemma cancel_order_run order_id symbol category w :
  let kwargs := [("category", PStr category); ("symbol", PStr symbol);
                 ("orderId", PStr order_id)] in
  let out := cancel_order_ St session kwargs (exchange w) in
  cancel_order session str_of_exn order_id symbol category w =
    (Ok (softened (fun e => error_dict (str_of_exn e)) (fst out)),
     World (snd out) (calls w ++ [Call "cancel_order" kwargs (fst out)])).
Proof.
  unfold cancel_order, try_except, bind, invoke, ret. simpl.
  destruct (cancel_order_ St session _ (exchange w)) as [[resp|e] st']; reflexivity.
Qed.

Lemma set_leverage_run symbol buy sell category w :
  let kwargs := [("category", PStr category); ("symbol", PStr symbol);
                 ("buyLeverage", PStr (str_of_int buy));
                 ("sellLeverage", PStr (str_of_int sell))] in
  let out := set_leverage_ St session kwargs (exchange w) in
  set_leverage session str_of_exn symbol buy sell category w =
    (Ok (softened (fun e => error_dict (str_of_exn e)) (fst out)),
     World (snd out) (calls w ++ [Call "set_leverage" kwargs (fst out)])).
Proof.
  unfold set_leverage, try_except, bind, invoke, ret. simpl.
  destruct (set_leverage_ St session _ (exchange w)) as [[resp|e] st']; reflexivity.
Qed.

Lemma get_order_history_run symbol category limit w :
  exists kwargs,
    let out := get_order_history_ St session kwargs (exchange w) in
    get_order_history session symbol category limit w =
      (Ok (fetched (fst out)),
       World (snd out) (calls w ++ [Call "get_order_history" kwargs (fst out)])).
Proof.
  unfold get_order_history, try_except, bind, invoke, lift, ret, fetched.
  set (kw := if truthy (opt_str symbol) then _ else _).
  exists kw. simpl.
  destruct (get_order_history_ St session kw (exchange w)) as [[resp|e] st']; simpl; auto.
  destruct (get resp "result" (PDict [])) as [res|e]; simpl; auto.
  destruct (get res "list" (PList [])) as [l|e]; simpl; auto.
Qed.

Lemma get_ticker_price_run symbol category w :
  let kwargs := [("category", PStr category); ("symbol", PStr symbol)] in
  let out := get_tickers_ St session kwargs (exchange w) in
  get_ticker_price session float_of_str symbol category w =
    (Ok (priced float_of_str (fst out)),
     World (snd out) (calls w ++ [Call "get_tickers" kwargs (fst out)])).
Proof.
  unfold get_ticker_price, try_except, bind, invoke, lift, ret, priced. simpl.
  destruct (get_tickers_ St session _ (exchange w)) as [[resp|e] st']; simpl; auto.
  destruct (get resp "result" (PDict [])) as [res|e]; simpl; auto.
  destruct (get res "list" (PList [])) as [t|e]; simpl; auto.
  destruct (truthy t); simpl; auto.
  destruct (getitem0 t) as [first|e]; simpl; auto.
  destruct (get first "lastPrice" (PInt 0)) as [lp|e]; simpl; auto.
  destruct (to_float float_of_str lp) as [f|e]; simpl; auto.
Qed.

Lemma close_position_cases symbol category w :
  let out := get_positions_ St session (positions_query category) (exchange w) in
  let w1 := World (snd out)
              (calls w ++ [Call "get_positions" (positions_query category) (fst out)]) in
  (exists msg,
      close_position session float_of_str str_of_float str_of_exn symbol category w =
        (Ok (error_dict msg), w1))
  \/ (exists resp side qty,
         fst out = Ok resp /\
         close_position session float_of_str str_of_float str_of_exn symbol category w =
           place_order session str_of_float str_of_exn symbol side "Market" qty
             None None None category "GTC" w1).
Proof.
  intros out w1.
  remember (close_position session float_of_str str_of_float str_of_exn symbol category w)
    as cp eqn:Hcp.
  unfold close_position, try_except, bind at 1 in Hcp.
  rewrite get_positions_run in Hcp. fold out in Hcp. fold w1 in Hcp.
  unfold bind, lift, ret in Hcp.
  destruct (fst out) as [resp|e] eqn:Eout; simpl in Hcp;
    [|left; eexists; exact Hcp].
  repeat match type of Hcp with
         | context [match ?x with Ok _ => _ | Raise _ => _ end] =>
             destruct x; simpl in Hcp; [|left; eexists; exact Hcp]
         | context [if ?b then _ else _] =>
             destruct b; simpl in Hcp; try (left; eexists; exact Hcp)
         end.
  all: right; exists resp; eexists; eexists; split; [reflexivity|].
  all: rewrite Hcp; apply place_order_total.
Qed.


(** C4. [place_order] makes one call to the session's [place_order]; for a
    Limit order without a price the keyword arguments hold no ["price"], and
    they hold one only if the order is a Limit order and a price was given. *)
Theorem place_order_price_only_for_limit
    symbol side order_type qty price stop_loss take_profit category tif w :
  exists kwargs outcome,
    calls (snd (place_order session str_of_float str_of_exn symbol side order_type qty
                  price stop_loss take_profit category tif w)) =
      calls w ++ [Call "place_order" kwargs outcome]
    /\ (order_type = "Limit" -> price = None -> dict_lookup "price" kwargs = None)
    /\ (dict_lookup "price" kwargs <> None ->
        order_type = "Limit" /\ exists p, price = Some p).
Proof.
  destruct (place_order_run symbol side order_type qty price stop_loss take_profit
              category tif w) as [kw [Hrun [Hnone _]]].
  exists kw. eexists. rewrite Hrun. simpl. split; [reflexivity|]. split.
  - intros _ ->. apply Hnone. simpl. apply andb_false_r.
  - intros Hsome.
    destruct (String.eqb order_type "Limit" && truthy (opt_float price)) eqn:E.
    + apply andb_true_iff in E. destruct E as [E1 E2].
      apply String.eqb_eq in E1. split; [exact E1|].
      destruct price as [p|]; [now exists p|discriminate].
    + elim Hsome. now apply Hnone.
Qed.

Lemma lists_fetched resp items : lists resp items -> fetched (Ok resp) = PList items.
Proof.
  intros [d [res [-> [Hres Hlist]]]]. simpl. rewrite Hres. simpl. now rewrite Hlist.
Qed.


Lemma settled_other symbol coin book :
  Forall (fun e => other_symbol symbol (snd e) \/
                   (for_symbol symbol (snd e) /\ fst e <> coin)) book ->
  Forall (other_symbol symbol) (settled coin book).
Proof.
  unfold settled. induction 1 as [|[c p] book Hp _ IH]; simpl; [constructor|].
  destruct (String.eqb c coin) eqn:E; simpl; auto.
  constructor; auto. destruct Hp as [Hp|[_ Hne]]; auto.
  apply String.eqb_eq in E. simpl in Hne. contradiction.
Qed.

(** C9. For every category the position query carries the settlement coin
    "USDT". Hence, with a session that honours the settlement-coin filter,
    when the positions for [symbol] on the exchange are settled in another
    coin, none of them is among the positions fetched, and [close_position]
    reports "No open position". *)
Theorem positions_settled_in_usdt_only category symbol w book :
  honours_settle_coin session book ->
  Forall (fun e => other_symbol symbol (snd e) \/
                   (for_symbol symbol (snd e) /\ fst e <> "USDT"))
         (book (exchange w)) ->
  (exists outcome,
      calls (snd (get_positions session category w)) =
        calls w ++ [Call "get_positions"
                      [("category", PStr category); ("settleCoin", PStr "USDT")] outcome])
  /\ exists items,
      fst (get_positions session category w) = Ok (PList items)
      /\ items = settled "USDT" (book (exchange w))
      /\ Forall (other_symbol symbol) items
      /\ fst (close_position session float_of_str str_of_float str_of_exn
                symbol category w) = Ok (error_dict "No open position").
Proof.
  intros Hhon Hbook. split.
  - rewrite get_positions_run. simpl. eexists. reflexivity.
  - destruct (Hhon (positions_query category) (exchange w) "USDT" eq_refl)
      as [resp [st' [Hq Hl]]].
    assert (Hget : get_positions session category w =
              (Ok (PList (settled "USDT" (book (exchange w)))),
               World st' (calls w ++ [Call "get_positions" (positions_query category) (Ok resp)]))).
    { rewrite get_positions_run, Hq. cbn [fst snd]. now rewrite (lists_fetched _ _ Hl). }
    exists (settled "USDT" (book (exchange w))).
    assert (Hnone := settled_other symbol "USDT" _ Hbook).
    rewrite Hget. simpl. repeat split; auto.
    now rewrite (close_position_nothing_held symbol category w _ _ Hget (or_introl Hnone)).
Qed.

End ClientFacts.

Lemma close_position_no_open_position_witness :
  exists w1,
    close_position Sample.exchange Sample.float_of_str Sample.str_of_float Sample.str_of_exn
      "ETHUSDT" "linear" Sample.start = (Ok (error_dict "No open position"), w1)
    /\ orders (calls w1) = [].
Proof.
  eexists.
  refine (let H := close_position_no_open_position Sample.exchange Sample.float_of_str
                     Sample.str_of_float Sample.str_of_exn "ETHUSDT" "linear" Sample.start
                     _ _ eq_refl _ in conj (proj1 H) (proj2 (proj2 H))).
  right. exists (Sample.position "ETHUSDT" "" "0"). split.
  - exists [], [Sample.position "BTCUSDT" "Buy" "0.5"].
    split; [reflexivity|]. split; [constructor|].
    eexists. split; reflexivity.
  - exists 0%float. split; [|reflexivity].
    eexists. eexists. split; [reflexivity|]. split; reflexivity.
Defined.

Lemma held_btc :
  matching_entry "BTCUSDT"
    [Sample.position "ETHUSDT" "" "0"; Sample.position "BTCUSDT" "Buy" "0.5"]
    (Sample.position "BTCUSDT" "Buy" "0.5").
Proof.
  exists [Sample.position "ETHUSDT" "" "0"], [].
  split; [reflexivity|]. split.
  - constructor; [|constructor].
    eexists. eexists. split; [reflexivity|]. split; [reflexivity|discriminate].
  - eexists. split; reflexivity.
Qed.

Lemma size_btc : size_of Sample.float_of_str (Sample.position "BTCUSDT" "Buy" "0.5") 0.5%float.
Proof. eexists. eexists. split; [reflexivity|]. split; reflexivity. Qed.

Lemma close_position_opposite_market_order_witness :
  fst (close_position Sample.exchange Sample.float_of_str Sample.str_of_float Sample.str_of_exn
         "BTCUSDT" "linear" Sample.start) = Ok (Sample.answer [("orderId", PStr "1")])
  /\ orders (calls (snd (close_position Sample.exchange Sample.float_of_str Sample.str_of_float
                           Sample.str_of_exn "BTCUSDT" "linear" Sample.start))) =
       [Call "place_order"
          [("category", PStr "linear"); ("symbol", PStr "BTCUSDT"); ("side", PStr "Sell");
           ("orderType", PStr "Market"); ("qty", PStr "0.5"); ("timeInForce", PStr "GTC")]
          (Ok (Sample.answer [("orderId", PStr "1")]))].
Proof.
  refine (let H := close_position_opposite_market_order Sample.exchange Sample.float_of_str
                     Sample.str_of_float Sample.str_of_exn "BTCUSDT" "linear" Sample.start
                     _ _ (Sample.position "BTCUSDT" "Buy" "0.5") 0.5%float "Buy" "Sell"
                     eq_refl held_btc size_btc eq_refl _ (or_introl eq_refl) in
          conj (proj1 (proj2 H)) (proj2 (proj2 (proj2 H)))).
  eexists. split; reflexivity.
Defined.

Lemma closing_side_sell_only_for_buy_witness :
  exists closing outcome,
    calls (snd (close_position Sample.exchange Sample.float_of_str Sample.str_of_float
                  Sample.str_of_exn "BTCUSDT" "linear" Sample.start)) =
      calls (snd (get_positions Sample.exchange "linear" Sample.start))
      ++ [Call "place_order"
            (closing_order Sample.str_of_float "BTCUSDT" closing "linear" (PrimFloat.abs 0.5))
            outcome]
    /\ (closing = "Sell" <-> PStr "Buy" = PStr "Buy")
    /\ (PStr "Buy" <> PStr "Buy" -> closing = "Buy").
Proof.
  refine (closing_side_sell_only_for_buy Sample.exchange Sample.float_of_str
            Sample.str_of_float Sample.str_of_exn "BTCUSDT" "linear" Sample.start
            _ _ (Sample.position "BTCUSDT" "Buy" "0.5") 0.5%float (PStr "Buy")
            eq_refl held_btc size_btc eq_refl _).
  eexists. split; reflexivity.
Defined.

Lemma honest_exchange : honours_settle_coin Sample.exchange (fun st => st).
Proof.
  intros kwargs st coin H. eexists. eexists. split; [reflexivity|].
  unfold Sample.asked_coin. rewrite H.
  eexists. eexists. split; [reflexivity|]. split; reflexivity.
Qed.

Lemma positions_settled_in_usdt_only_witness :
  Exists (fun e => for_symbol "BTCUSD" (snd e)) Sample.a_book
  /\ fst (close_position Sample.exchange Sample.float_of_str Sample.str_of_float
            Sample.str_of_exn "BTCUSD" "inverse" Sample.start) =
       Ok (error_dict "No open position").
Proof.
  split.
  - do 2 apply Exists_cons_tl. apply Exists_cons_hd. eexists. split; reflexivity.
  - assert (Hbook : Forall (fun e => other_symbol "BTCUSD" (snd e) \/
                                     (for_symbol "BTCUSD" (snd e) /\ fst e <> "USDT"))
                           Sample.a_book).
    { constructor; [|constructor; [|constructor; [|constructor]]].
      - left. eexists. eexists. split; [reflexivity|]. split; [reflexivity|discriminate].
      - left. eexists. eexists. split; [reflexivity|]. split; [reflexivity|discriminate].
      - right. split; [eexists; split; reflexivity|discriminate]. }
    destruct (positions_settled_in_usdt_only Sample.exchange Sample.float_of_str
                Sample.str_of_float Sample.str_of_exn "inverse" "BTCUSD" Sample.start
                (fun st => st) honest_exchange Hbook) as [_ [items [_ [_ [_ H]]]]].
    exact H.
Defined.

(** * The client: edges and what it never does *)

Section ClientEdges.

Context {St : Type}.
Variable session : Session St.
Variable float_of_str : string -> option float.
Variable str_of_float : float -> string.
Variable str_of_exn : exn -> string.

Lemma getitem_get p k v default : getitem p k = Ok v -> get p k default = Ok v.
Proof.
  destruct p; simpl; try discriminate.
  destruct (dict_lookup k d); [auto|discriminate].
Qed.

Lemma getitem_lookup p k v :
  getitem p k = Ok v -> exists d, p = PDict d /\ dict_lookup k d = Some v.
Proof.
  destruct p; simpl; try discriminate.
  destruct (dict_lookup k d) eqn:E; [|discriminate].
  intros [= ->]. eauto.
Qed.

(** What [next_match] hands back, when it is not [None], is the first entry
    for the symbol. *)
Lemma next_match_first symbol : forall items p,
  next_match items symbol = Ok p -> truthy p = true ->
  matching_entry symbol items p.
Proof.
  induction items as [|q items IH]; simpl; intros p H Ht.
  - inversion H. subst. discriminate.
  - destruct (getitem q "symbol") as [v|e] eqn:G; [|discriminate].
    destruct (getitem_lookup _ _ _ G) as [d [-> Hd]].
    destruct (eq_str v symbol) eqn:E.
    + inversion H. subst. apply eq_str_true in E. subst v.
      exists [], items. split; [reflexivity|]. split; [constructor|].
      exists d. split; auto.
    + destruct (IH p H Ht) as [before [after [-> [Hb Hp]]]].
      exists (PDict d :: before), after. split; [reflexivity|]. split; [|exact Hp].
      constructor; [|exact Hb].
      exists d, v. split; [reflexivity|]. split; [exact Hd|].
      intros ->. simpl in E. rewrite String.eqb_refl in E. discriminate.
Qed.

Lemma close_position_outcomes symbol category w :
  let out := get_positions_ St session (positions_query category) (exchange w) in
  let w1 := World (snd out)
              (calls w ++ [Call "get_positions" (positions_query category) (fst out)]) in
  (exists msg, close_position session float_of_str str_of_float str_of_exn symbol category w = (Ok (error_dict msg), w1))
  \/ (exists items p f held,
         iterate (fetched (fst out)) = Ok items /\
         matching_entry symbol items p /\
         size_of float_of_str p f /\
         PrimFloat.eqb f 0%float = false /\
         side_of p held /\
         close_position session float_of_str str_of_float str_of_exn symbol category w =
           place_order session str_of_float str_of_exn symbol
             (if eq_str held "Buy" then "Sell" else "Buy") "Market" (PrimFloat.abs f)
             None None None category "GTC" w1).
Proof.
  intros out w1.
  remember (close_position session float_of_str str_of_float str_of_exn symbol category w) as cp eqn:Hcp.
  unfold close_position, try_except, bind at 1 in Hcp.
  rewrite get_positions_run in Hcp. fold out in Hcp. fold w1 in Hcp.
  unfold bind, lift, ret in Hcp. cbn [fst snd] in Hcp.
  destruct (iterate (fetched (fst out))) as [items|e] eqn:Ei; simpl in Hcp;
    [|left; eexists; exact Hcp].
  destruct (next_match items symbol) as [p|e] eqn:En; simpl in Hcp;
    [|left; eexists; exact Hcp].
  destruct (truthy p) eqn:Et; simpl in Hcp; [|left; eexists; exact Hcp].
  destruct (get p "size" (PInt 0)) as [sz|e] eqn:Eg; simpl in Hcp;
    [|left; eexists; exact Hcp].
  destruct (to_float float_of_str sz) as [f|e] eqn:Ef; simpl in Hcp;
    [|left; eexists; exact Hcp].
  destruct (PrimFloat.eqb f 0) eqn:Ez; simpl in Hcp; [left; eexists; exact Hcp|].
  destruct (getitem p "side") as [held|e] eqn:Es; simpl in Hcp;
    [|left; eexists; exact Hcp].
  destruct (getitem p "size") as [sz'|e] eqn:Eg'; simpl in Hcp;
    [|left; eexists; exact Hcp].
  rewrite (getitem_get _ _ _ (PInt 0) Eg') in Eg. inversion Eg. subst sz'.
  rewrite Ef in Hcp. simpl in Hcp.
  right. exists items, p, f, held.
  destruct (getitem_lookup _ _ _ Eg') as [d [-> Hd]].
  destruct (getitem_lookup _ _ _ Es) as [d' [Hd' Hs]]. inversion Hd'. subst d'.
  split; [reflexivity|]. split; [now apply next_match_first|].
  split; [exists d, sz; auto|]. split; [exact Ez|]. split; [exists d; auto|].
  rewrite Hcp. apply place_order_total.
Qed.

(** X2. Whatever the session answers, [close_position] queries the positions
    once and then submits at most one order. Without an order it returns an
    error mapping; an order is a Market order, good till cancelled, for the
    symbol and category asked for, on side Buy or Sell, with no other field,
    and its outcome is what [close_position] returns. *)
Theorem close_position_at_most_one_order symbol category w :
  let query := Call "get_positions" (positions_query category)
                 (fst (get_positions_ St session (positions_query category) (exchange w))) in
  (calls (snd (close_position session float_of_str str_of_float str_of_exn symbol category w)) = calls w ++ [query]
   /\ exists msg, fst (close_position session float_of_str str_of_float str_of_exn symbol category w) = Ok (error_dict msg))
  \/ (exists side qty outcome,
         (side = "Buy" \/ side = "Sell")
         /\ calls (snd (close_position session float_of_str str_of_float str_of_exn symbol category w)) =
              calls w ++ [query;
                          Call "place_order"
                            (closing_order str_of_float symbol side category qty) outcome]
         /\ fst (close_position session float_of_str str_of_float str_of_exn symbol category w) =
              Ok (softened (fun e => error_dict (str_of_exn e)) outcome)).
Proof.
  intros query.
  destruct (close_position_outcomes symbol category w)
    as [[msg H]|[items [p [f [held [_ [_ [_ [_ [_ H]]]]]]]]]]; rewrite H.
  - left. simpl. split; [reflexivity|]. eexists. reflexivity.
  - right. rewrite closing_order_run. simpl.
    exists (if eq_str held "Buy" then "Sell" else "Buy"). eexists. eexists.
    split; [destruct (eq_str held "Buy"); auto|].
    rewrite <- app_assoc. split; reflexivity.
Qed.

Lemma matching_entry_in symbol items p :
  matching_entry symbol items p -> In p items /\ exists d, p = PDict d.
Proof.
  intros [before [after [-> [_ [d [-> _]]]]]]. split; [|eauto].
  apply in_or_app. right. left. reflexivity.
Qed.

Lemma chars_are_str s p : In p (chars s) -> exists c, p = PStr c.
Proof.
  induction s as [|c s IH]; simpl; [tauto|].
  intros [<-|H]; eauto.
Qed.

Lemma iterate_with_entry v items symbol p :
  iterate v = Ok items -> matching_entry symbol items p -> v = PList items.
Proof.
  intros Hi Hp. destruct (matching_entry_in _ _ _ Hp) as [Hin [d ->]].
  destruct v; simpl in Hi; try discriminate; inversion Hi; subst; auto.
  - apply chars_are_str in Hin. destruct Hin as [c Hc]. discriminate.
  - apply in_map_iff in Hin. destruct Hin as [kv [Hkv _]]. discriminate.
Qed.

(** X3. [close_position] submits an order only for a position that is held:
    when the orders grow, the positions fetched are a list whose first entry
    for the symbol has a size that converts to a nonzero float, and the one
    order added closes that size. *)
Theorem close_position_order_needs_held_position symbol category w :
  orders (calls (snd (close_position session float_of_str str_of_float str_of_exn symbol category w))) <> orders (calls w) ->
  exists items p f held outcome,
    fst (get_positions session category w) = Ok (PList items)
    /\ matching_entry symbol items p
    /\ size_of float_of_str p f
    /\ PrimFloat.eqb f 0%float = false
    /\ side_of p held
    /\ orders (calls (snd (close_position session float_of_str str_of_float str_of_exn symbol category w))) =
         orders (calls w)
         ++ [Call "place_order"
               (closing_order str_of_float symbol
                  (if eq_str held "Buy" then "Sell" else "Buy") category (PrimFloat.abs f))
               outcome].
Proof.
  intros Hgrew.
  destruct (close_position_outcomes symbol category w)
    as [[msg H]|[items [p [f [held [Hi [Hp [Hf [Hz [Hs H]]]]]]]]]]; rewrite H in *.
  - elim Hgrew. simpl. rewrite orders_app. simpl. apply app_nil_r.
  - exists items, p, f, held. eexists.
    rewrite get_positions_run. cbn [fst].
    rewrite (iterate_with_entry _ _ _ _ Hi Hp).
    repeat (split; [assumption || reflexivity|]).
    rewrite closing_order_run. simpl.
    rewrite !orders_app. simpl. rewrite app_nil_r. reflexivity.
Qed.


Lemma next_match_raises symbol before q rest e :
  Forall (other_symbol symbol) before ->
  getitem q "symbol" = Raise e ->
  next_match (before ++ q :: rest) symbol = Raise e.
Proof.
  intros Hb Hq. rewrite next_match_skips by assumption. simpl. now rewrite Hq.
Qed.

(** X5. An entry without a symbol field that comes before any entry for the
    symbol stops the scan: [close_position] returns the error mapping of the
    [KeyError] and submits no order, even when a position for the symbol
    follows. *)
Theorem close_position_entry_without_symbol symbol category w before q rest w1 :
  get_positions session category w = (Ok (PList (before ++ q :: rest)), w1) ->
  Forall (other_symbol symbol) before ->
  lacks_symbol q ->
  close_position session float_of_str str_of_float str_of_exn symbol category w =
    (Ok (error_dict (str_of_exn (KeyError (PStr "symbol")))), w1)
  /\ orders (calls w1) = orders (calls w).
Proof.
  intros Hget Hb [d [-> Hd]]. split.
  - unfold close_position, try_except, bind at 1. rewrite Hget.
    unfold bind, lift, ret. simpl.
    rewrite (next_match_raises symbol before (PDict d) rest (KeyError (PStr "symbol")) Hb).
    + reflexivity.
    + simpl. now rewrite Hd.
  - rewrite get_positions_run in Hget. inversion Hget.
    simpl. rewrite orders_app. simpl. apply app_nil_r.
Qed.

(** X6. A matching entry without a size field counts as size zero:
    [close_position] returns "No open position". *)
Theorem close_position_entry_without_size symbol category w items w1 d :
  get_positions session category w = (Ok (PList items), w1) ->
  matching_entry symbol items (PDict d) ->
  dict_lookup "size" d = None ->
  close_position session float_of_str str_of_float str_of_exn symbol category w = (Ok (error_dict "No open position"), w1).
Proof.
  intros Hget Hp Hd.
  unfold close_position, try_except, bind at 1. rewrite Hget.
  unfold bind, lift, ret. simpl.
  rewrite (next_match_found _ _ _ Hp).
  destruct Hp as [bf [af [_ [_ Hfs]]]].
  rewrite (for_symbol_truthy _ _ Hfs). simpl. rewrite Hd. reflexivity.
Qed.

(** X7. A matching entry of nonzero size without a side field is not closed:
    [close_position] returns the error mapping of the [KeyError] and the world
    is the one the position query left. *)
Theorem close_position_entry_without_side symbol category w items w1 p f :
  get_positions session category w = (Ok (PList items), w1) ->
  matching_entry symbol items p ->
  size_of float_of_str p f ->
  PrimFloat.eqb f 0%float = false ->
  (exists d, p = PDict d /\ dict_lookup "side" d = None) ->
  close_position session float_of_str str_of_float str_of_exn symbol category w =
    (Ok (error_dict (str_of_exn (KeyError (PStr "side")))), w1).
Proof.
  intros Hget Hp [d [sz [-> [Hsz Hf]]]] Hz [d' [Hd Hs]]. inversion Hd. subst d'.
  unfold close_position, try_except, bind at 1. rewrite Hget.
  unfold bind, lift, ret. simpl.
  rewrite (next_match_found _ _ _ Hp).
  destruct Hp as [bf [af [_ [_ Hfs]]]].
  rewrite (for_symbol_truthy _ _ Hfs). simpl.
  rewrite Hsz. simpl. rewrite Hf. simpl. rewrite Hz. simpl. rewrite Hs. reflexivity.
Qed.

(** X8. A matching entry whose size does not convert to a float is not
    closed: [close_position] returns the error mapping of the conversion's
    exception and the world is the one the position query left. *)
Theorem close_position_size_not_a_number symbol category w items w1 d size e :
  get_positions session category w = (Ok (PList items), w1) ->
  matching_entry symbol items (PDict d) ->
  dict_lookup "size" d = Some size ->
  to_float float_of_str size = Raise e ->
  close_position session float_of_str str_of_float str_of_exn symbol category w = (Ok (error_dict (str_of_exn e)), w1).
Proof.
  intros Hget Hp Hsz Hf.
  unfold close_position, try_except, bind at 1. rewrite Hget.
  unfold bind, lift, ret. simpl.
  rewrite (next_match_found _ _ _ Hp).
  destruct Hp as [bf [af [_ [_ Hfs]]]].
  rewrite (for_symbol_truthy _ _ Hfs). simpl.
  rewrite Hsz. simpl. rewrite Hf. reflexivity.
Qed.


Lemma lookup_keys k (d : dict) : dict_lookup k d <> None -> In k (map fst d).
Proof.
  induction d as [|[k' v] d IH]; simpl; [tauto|].
  destruct (String.eqb k' k) eqn:E; intros H.
  - left. now apply String.eqb_eq.
  - right. auto.
Qed.

Lemma sent_truthy x :
  sent str_of_float x =
    if truthy (opt_float x) then Some (PStr (str_of_opt_float str_of_float x)) else None.
Proof.
  destruct x as [f|]; simpl; [|reflexivity].
  unfold float_truthy. now destruct (PrimFloat.eqb f 0).
Qed.

(** X9. The keyword arguments [place_order] sends: the six fields category,
    symbol, side, orderType, qty (as [str]) and timeInForce always; price only
    for a Limit order with a price that is not zero; stopLoss and takeProfit
    only when given and not zero; nothing else. *)
Theorem place_order_fields
    symbol side order_type qty price stop_loss take_profit category tif w :
  exists kwargs outcome,
    calls (snd (place_order session str_of_float str_of_exn symbol side order_type qty
                  price stop_loss take_profit category tif w)) =
      calls w ++ [Call "place_order" kwargs outcome]
    /\ dict_lookup "category" kwargs = Some (PStr category)
    /\ dict_lookup "symbol" kwargs = Some (PStr symbol)
    /\ dict_lookup "side" kwargs = Some (PStr side)
    /\ dict_lookup "orderType" kwargs = Some (PStr order_type)
    /\ dict_lookup "qty" kwargs = Some (PStr (str_of_float qty))
    /\ dict_lookup "timeInForce" kwargs = Some (PStr tif)
    /\ dict_lookup "price" kwargs =
         (if String.eqb order_type "Limit" then sent str_of_float price else None)
    /\ dict_lookup "stopLoss" kwargs = sent str_of_float stop_loss
    /\ dict_lookup "takeProfit" kwargs = sent str_of_float take_profit
    /\ forall k, dict_lookup k kwargs <> None ->
                 In k ["category"; "symbol"; "side"; "orderType"; "qty"; "timeInForce";
                       "price"; "stopLoss"; "takeProfit"].
Proof.
  unfold place_order, try_except, bind, invoke, ret.
  set (kw := if truthy (opt_float take_profit) then _ else _).
  exists kw, (fst (place_order_ St session kw (exchange w))).
  split.
  { destruct (place_order_ St session kw (exchange w)) as [[resp|e] st']; reflexivity. }
  subst kw. rewrite !sent_truthy.
  destruct (String.eqb order_type "Limit"), (truthy (opt_float price)),
           (truthy (opt_float stop_loss)), (truthy (opt_float take_profit));
    cbn [andb];
    repeat (split; [reflexivity|]);
    intros k Hk; apply lookup_keys in Hk; simpl in Hk; simpl; tauto.
Qed.

(** X10. [get_positions] returns what the answer holds under result.list,
    whatever that is; it returns the empty list when either key is missing
    and when the answer or its result is not a mapping. *)
Theorem get_positions_returns_list_entry category w :
  let out := fst (get_positions_ St session (positions_query category) (exchange w)) in
  let r := fst (get_positions session category w) in
  (forall d res v,
      out = Ok (PDict d) -> dict_lookup "result" d = Some (PDict res) ->
      dict_lookup "list" res = Some v -> r = Ok v)
  /\ (forall d res,
         out = Ok (PDict d) -> dict_lookup "result" d = Some (PDict res) ->
         dict_lookup "list" res = None -> r = Ok (PList []))
  /\ (forall d, out = Ok (PDict d) -> dict_lookup "result" d = None -> r = Ok (PList []))
  /\ (forall d x,
         out = Ok (PDict d) -> dict_lookup "result" d = Some x ->
         (forall res, x <> PDict res) -> r = Ok (PList []))
  /\ (forall resp, out = Ok resp -> (forall d, resp <> PDict d) -> r = Ok (PList [])).
Proof.
  intros out r. subst r. rewrite get_positions_run. cbn [fst]. fold out.
  repeat split.
  - intros d res v -> Hr Hl. simpl. rewrite Hr. simpl. now rewrite Hl.
  - intros d res -> Hr Hl. simpl. rewrite Hr. simpl. now rewrite Hl.
  - intros d -> Hr. simpl. now rewrite Hr.
  - intros d x -> Hr Hx. simpl. rewrite Hr.
    destruct x; try reflexivity. now elim (Hx d0).
  - intros resp -> Hx. destruct resp; try reflexivity. now elim (Hx d).
Qed.

(** X11. [get_order_history] sends category and limit, and the symbol only
    when it is a string that is not empty; it returns what the answer holds
    under result.list, with the same defaults as [get_positions]. *)
Theorem get_order_history_symbol_filter symbol category limit w :
  exists outcome,
    calls (snd (get_order_history session symbol category limit w)) =
      calls w ++ [Call "get_order_history"
                    ([("category", PStr category); ("limit", PInt limit)]
                     ++ match symbol with
                        | Some s => if String.eqb s "" then [] else [("symbol", PStr s)]
                        | None => []
                        end)
                    outcome]
    /\ fst (get_order_history session symbol category limit w) = Ok (fetched outcome).
Proof.
  unfold get_order_history, try_except, bind, invoke, lift, ret.
  set (kw := if truthy (opt_str symbol) then _ else _).
  assert (Hkw : kw = [("category", PStr category); ("limit", PInt limit)]
                     ++ match symbol with
                        | Some s => if String.eqb s "" then [] else [("symbol", PStr s)]
                        | None => []
                        end).
  { subst kw. destruct symbol as [s|]; [|reflexivity]. simpl.
    destruct (String.eqb s ""); reflexivity. }
  rewrite <- Hkw. exists (fst (get_order_history_ St session kw (exchange w))).
  destruct (get_order_history_ St session kw (exchange w)) as [[resp|e] st']; simpl; auto.
  unfold fetched.
  destruct (get resp "result" (PDict [])) as [res|e]; simpl; auto.
  destruct (get res "list" (PList [])) as [l|e]; simpl; auto.
Qed.

(** X12. A first ticker without a last price gives the price 0.0, not
    [None]; a last price that does not convert to a float gives [None]. *)
Theorem get_ticker_price_without_last_price symbol category w resp d rest :
  fst (get_tickers_ St session [("category", PStr category); ("symbol", PStr symbol)]
         (exchange w)) = Ok resp ->
  lists resp (PDict d :: rest) ->
  (dict_lookup "lastPrice" d = None ->
   fst (get_ticker_price session float_of_str symbol category w) = Ok (PFloat 0%float))
  /\ (forall v e, dict_lookup "lastPrice" d = Some v -> to_float float_of_str v = Raise e ->
      fst (get_ticker_price session float_of_str symbol category w) = Ok PNone).
Proof.
  intros Hout [d0 [res [-> [Hr Hl]]]].
  rewrite get_ticker_price_run. cbn [fst]. rewrite Hout.
  unfold priced. simpl. rewrite Hr. simpl. rewrite Hl. simpl. split.
  - intros ->. reflexivity.
  - intros v e -> ->. reflexivity.
Qed.

(** X13. Every operation calls the session, its own method first, and
    [close_position] alone may call it a second time. The operations other
    than [place_order] and [close_position] leave the orders as they were. *)
Theorem operations_call_the_session_once op w :
  exists c rest,
    calls (snd (perform session float_of_str str_of_float str_of_exn op w)) = calls w ++ c :: rest
    /\ call_method c = first_method op
    /\ (rest = [] \/ exists symbol category, op = ClosePosition symbol category)
    /\ (trades op = false -> orders (calls (snd (perform session float_of_str str_of_float str_of_exn op w))) = orders (calls w)).
Proof.
  destruct op; simpl perform.
  - rewrite get_account_info_run. simpl. eexists. exists []. repeat split; auto.
    intros _. rewrite orders_app. simpl. apply app_nil_r.
  - rewrite get_positions_run. simpl. eexists. exists []. repeat split; auto.
    intros _. rewrite orders_app. simpl. apply app_nil_r.
  - destruct (place_order_run session str_of_float str_of_exn symbol side order_type qty
                price stop_loss take_profit category time_in_force w) as [kw [-> _]].
    simpl. eexists. exists []. repeat split; auto. discriminate.
  - destruct (close_position_cases session float_of_str str_of_float str_of_exn
                symbol category w) as [[msg ->]|[resp [side [qty [_ ->]]]]].
    + simpl. eexists. exists []. repeat split; auto. discriminate.
    + rewrite closing_order_run. simpl. rewrite <- app_assoc. simpl.
      eexists. eexists. repeat split; eauto. discriminate.
  - rewrite cancel_order_run. simpl. eexists. exists []. repeat split; auto.
    intros _. rewrite orders_app. simpl. apply app_nil_r.
  - rewrite get_ticker_price_run. simpl. eexists. exists []. repeat split; auto.
    intros _. rewrite orders_app. simpl. apply app_nil_r.
  - destruct (get_order_history_run session symbol category limit w) as [kw ->].
    simpl. eexists. exists []. repeat split; auto.
    intros _. rewrite orders_app. simpl. apply app_nil_r.
  - rewrite set_leverage_run. simpl. eexists. exists []. repeat split; auto.
    intros _. rewrite orders_app. simpl. apply app_nil_r.
Qed.

(** X14. [get_account_info], [place_order], [cancel_order] and
    [set_leverage] hand the session's answer on unchanged. *)
Theorem operations_pass_the_answer_on op w name kwargs resp :
  passes_answer_on op = true ->
  calls (snd (perform session float_of_str str_of_float str_of_exn op w)) = calls w ++ [Call name kwargs (Ok resp)] ->
  fst (perform session float_of_str str_of_float str_of_exn op w) = Ok resp.
Proof.
  assert (Hlast : forall (cs : list call) n k o n' k' o',
             cs ++ [Call n k o] = cs ++ [Call n' k' o'] -> o = o').
  { intros cs n k o n' k' o' H. apply app_inv_head in H. now inversion H. }
  destruct op; simpl passes_answer_on; try discriminate; intros _; simpl perform.
  - rewrite get_account_info_run. simpl. intros H.
    now rewrite (Hlast _ _ _ _ _ _ _ H).
  - destruct (place_order_run session str_of_float str_of_exn symbol side order_type qty
                price stop_loss take_profit category time_in_force w) as [kw [-> _]].
    simpl. intros H. now rewrite (Hlast _ _ _ _ _ _ _ H).
  - rewrite cancel_order_run. simpl. intros H.
    now rewrite (Hlast _ _ _ _ _ _ _ H).
  - rewrite set_leverage_run. simpl. intros H.
    now rewrite (Hlast _ _ _ _ _ _ _ H).
Qed.

End ClientEdges.

Lemma close_position_order_needs_held_position_witness :
  exists p f,
    matching_entry "BTCUSDT"
      [Sample.position "ETHUSDT" "" "0"; Sample.position "BTCUSDT" "Buy" "0.5"] p
    /\ size_of Sample.float_of_str p f
    /\ PrimFloat.eqb f 0%float = false.
Proof.
  destruct (close_position_order_needs_held_position Sample.exchange Sample.float_of_str
              Sample.str_of_float Sample.str_of_exn "BTCUSDT" "linear" Sample.start)
    as [items [p [f [held [outcome [Hi [Hp [Hf [Hz _]]]]]]]]].
  - vm_compute. discriminate.
  - vm_compute in Hi. inversion Hi. subst items. eauto.
Defined.


Lemma close_position_entry_without_symbol_witness :
  fst (close_position Sample.exchange Sample.float_of_str Sample.str_of_float
         Sample.str_of_exn "BTCUSDT" "linear"
         (holding [PDict [("size", PStr "1")]; Sample.position "BTCUSDT" "Buy" "0.5"])) =
    Ok (error_dict "KeyError").
Proof.
  refine (f_equal fst
            (proj1 (close_position_entry_without_symbol Sample.exchange Sample.float_of_str
                      Sample.str_of_float Sample.str_of_exn "BTCUSDT" "linear"
                      (holding [PDict [("size", PStr "1")];
                                Sample.position "BTCUSDT" "Buy" "0.5"])
                      [] (PDict [("size", PStr "1")])
                      [Sample.position "BTCUSDT" "Buy" "0.5"] _ eq_refl (Forall_nil _) _))).
  eexists. split; reflexivity.
Defined.

Lemma close_position_entry_without_size_witness :
  fst (close_position Sample.exchange Sample.float_of_str Sample.str_of_float
         Sample.str_of_exn "BTCUSDT" "linear"
         (holding [PDict [("symbol", PStr "BTCUSDT"); ("side", PStr "Buy")]])) =
    Ok (error_dict "No open position").
Proof.
  refine (f_equal fst
            (close_position_entry_without_size Sample.exchange Sample.float_of_str
               Sample.str_of_float Sample.str_of_exn "BTCUSDT" "linear"
               (holding [PDict [("symbol", PStr "BTCUSDT"); ("side", PStr "Buy")]])
               _ _ [("symbol", PStr "BTCUSDT"); ("side", PStr "Buy")] eq_refl _ eq_refl)).
  exists [], []. split; [reflexivity|]. split; [constructor|].
  eexists. split; reflexivity.
Defined.

Lemma close_position_entry_without_side_witness :
  fst (close_position Sample.exchange Sample.float_of_str Sample.str_of_float
         Sample.str_of_exn "BTCUSDT" "linear"
         (holding [PDict [("symbol", PStr "BTCUSDT"); ("size", PStr "0.5")]])) =
    Ok (error_dict "KeyError").
Proof.
  refine (f_equal fst
            (close_position_entry_without_side Sample.exchange Sample.float_of_str
               Sample.str_of_float Sample.str_of_exn "BTCUSDT" "linear"
               (holding [PDict [("symbol", PStr "BTCUSDT"); ("size", PStr "0.5")]])
               _ _ (PDict [("symbol", PStr "BTCUSDT"); ("size", PStr "0.5")]) 0.5%float
               eq_refl _ _ eq_refl _)).
  - exists [], []. split; [reflexivity|]. split; [constructor|].
    eexists. split; reflexivity.
  - eexists. eexists. split; [reflexivity|]. split; reflexivity.
  - eexists. split; reflexivity.
Defined.

Lemma close_position_size_not_a_number_witness :
  fst (close_position Sample.exchange Sample.float_of_str Sample.str_of_float
         Sample.str_of_exn "BTCUSDT" "linear"
         (holding [Sample.position "BTCUSDT" "Buy" "half"])) =
    Ok (error_dict "ValueError").
Proof.
  refine (f_equal fst
            (close_position_size_not_a_number Sample.exchange Sample.float_of_str
               Sample.str_of_float Sample.str_of_exn "BTCUSDT" "linear"
               (holding [Sample.position "BTCUSDT" "Buy" "half"])
               _ _ [("symbol", PStr "BTCUSDT"); ("side", PStr "Buy"); ("size", PStr "half")]
               (PStr "half") (ValueError (PStr "half")) eq_refl _ eq_refl eq_refl)).
  exists [], []. split; [reflexivity|]. split; [constructor|].
  eexists. split; reflexivity.
Defined.

Lemma get_ticker_price_without_last_price_witness :
  fst (get_ticker_price no_last_price Sample.float_of_str "BTCUSDT" "linear" Sample.start) =
    Ok (PFloat 0%float).
Proof.
  refine (proj1 (get_ticker_price_without_last_price no_last_price Sample.float_of_str
                   "BTCUSDT" "linear" Sample.start _ [("symbol", PStr "BTCUSDT")] []
                   eq_refl _) eq_refl).
  eexists. eexists. split; [reflexivity|]. split; reflexivity.
Defined.

Lemma operations_pass_the_answer_on_witness :
  fst (cancel_order Sample.exchange Sample.str_of_exn "1" "BTCUSDT" "linear" Sample.start) =
    Ok (Sample.answer [("orderId", PStr "1")]).
Proof.
  exact (operations_pass_the_answer_on Sample.exchange Sample.float_of_str
           Sample.str_of_float Sample.str_of_exn (CancelOrder "1" "BTCUSDT" "linear")
           Sample.start _ _ _ eq_refl eq_refl).
Defined.

(** * The client when the session is interrupted *)

Section InterruptibleFacts.

Context {St : Type}.
Variable session : Interruptible.Session St.
Variable float_of_str : string -> option float.
Variable str_of_float : float -> string.
Variable str_of_exn : exn -> string.

Ltac run_one out :=
  unfold Interruptible.try_except, Interruptible.bind, Interruptible.invoke, Interruptible.lift, Interruptible.ret;
  destruct out as [[resp|[e|b]] st']; simpl; auto.

Lemma i_get_account_info_run w :
  let out := Interruptible.get_wallet_balance_ St session [("accountType", PStr "UNIFIED")] (Interruptible.exchange w) in
  Interruptible.get_account_info session w =
    (Interruptible.settle (softened (fun _ => PDict [])) (fst out),
     Interruptible.World (snd out)
       (Interruptible.calls w ++ [Interruptible.Call "get_wallet_balance" [("accountType", PStr "UNIFIED")] (fst out)])).
Proof.
  unfold Interruptible.get_account_info.
  run_one (Interruptible.get_wallet_balance_ St session [("accountType", PStr "UNIFIED")] (Interruptible.exchange w)).
Qed.

Lemma i_get_positions_run category w :
  let out := Interruptible.get_positions_ St session (positions_query category) (Interruptible.exchange w) in
  Interruptible.get_positions session category w =
    (Interruptible.settle fetched (fst out),
     Interruptible.World (snd out)
       (Interruptible.calls w ++ [Interruptible.Call "get_positions" (positions_query category) (fst out)])).
Proof.
  unfold Interruptible.get_positions, positions_query.
  run_one (Interruptible.get_positions_ St session
             [("category", PStr category); ("settleCoin", PStr "USDT")] (Interruptible.exchange w)).
  destruct (get resp "result" (PDict [])) as [res|e]; simpl; auto.
  destruct (get res "list" (PList [])) as [l|e]; simpl; auto.
Qed.

Lemma i_place_order_run symbol side order_type qty price stop_loss take_profit category tif w :
  exists kwargs,
    let out := Interruptible.place_order_ St session kwargs (Interruptible.exchange w) in
    Interruptible.place_order session str_of_float str_of_exn symbol side order_type qty
      price stop_loss take_profit category tif w =
      (Interruptible.settle (softened (fun e => error_dict (str_of_exn e))) (fst out),
       Interruptible.World (snd out) (Interruptible.calls w ++ [Interruptible.Call "place_order" kwargs (fst out)])).
Proof.
  unfold Interruptible.place_order.
  set (kw := if truthy (opt_float take_profit) then _ else _).
  exists kw. run_one (Interruptible.place_order_ St session kw (Interruptible.exchange w)).
Qed.

Lemma i_cancel_order_run order_id symbol category w :
  let kwargs := [("category", PStr category); ("symbol", PStr symbol);
                 ("orderId", PStr order_id)] in
  let out := Interruptible.cancel_order_ St session kwargs (Interruptible.exchange w) in
  Interruptible.cancel_order session str_of_exn order_id symbol category w =
    (Interruptible.settle (softened (fun e => error_dict (str_of_exn e))) (fst out),
     Interruptible.World (snd out) (Interruptible.calls w ++ [Interruptible.Call "cancel_order" kwargs (fst out)])).
Proof.
  unfold Interruptible.cancel_order.
  run_one (Interruptible.cancel_order_ St session
             [("category", PStr category); ("symbol", PStr symbol);
              ("orderId", PStr order_id)] (Interruptible.exchange w)).
Qed.

Lemma i_set_leverage_run symbol buy sell category w :
  let kwargs := [("category", PStr category); ("symbol", PStr symbol);
                 ("buyLeverage", PStr (str_of_int buy));
                 ("sellLeverage", PStr (str_of_int sell))] in
  let out := Interruptible.set_leverage_ St session kwargs (Interruptible.exchange w) in
  Interruptible.set_leverage session str_of_exn symbol buy sell category w =
    (Interruptible.settle (softened (fun e => error_dict (str_of_exn e))) (fst out),
     Interruptible.World (snd out) (Interruptible.calls w ++ [Interruptible.Call "set_leverage" kwargs (fst out)])).
Proof.
  unfold Interruptible.set_leverage.
  run_one (Interruptible.set_leverage_ St session
             [("category", PStr category); ("symbol", PStr symbol);
              ("buyLeverage", PStr (str_of_int buy));
              ("sellLeverage", PStr (str_of_int sell))] (Interruptible.exchange w)).
Qed.

Lemma i_get_order_history_run symbol category limit w :
  exists kwargs,
    let out := Interruptible.get_order_history_ St session kwargs (Interruptible.exchange w) in
    Interruptible.get_order_history session symbol category limit w =
      (Interruptible.settle fetched (fst out),
       Interruptible.World (snd out) (Interruptible.calls w ++ [Interruptible.Call "get_order_history" kwargs (fst out)])).
Proof.
  unfold Interruptible.get_order_history.
  set (kw := if truthy (opt_str symbol) then _ else _).
  exists kw. run_one (Interruptible.get_order_history_ St session kw (Interruptible.exchange w)).
  destruct (get resp "result" (PDict [])) as [res|e]; simpl; auto.
  destruct (get res "list" (PList [])) as [l|e]; simpl; auto.
Qed.

Lemma i_get_ticker_price_run symbol category w :
  let kwargs := [("category", PStr category); ("symbol", PStr symbol)] in
  let out := Interruptible.get_tickers_ St session kwargs (Interruptible.exchange w) in
  Interruptible.get_ticker_price session float_of_str symbol category w =
    (Interruptible.settle (priced float_of_str) (fst out),
     Interruptible.World (snd out) (Interruptible.calls w ++ [Interruptible.Call "get_tickers" kwargs (fst out)])).
Proof.
  unfold Interruptible.get_ticker_price.
  run_one (Interruptible.get_tickers_ St session
             [("category", PStr category); ("symbol", PStr symbol)] (Interruptible.exchange w)).
  destruct (get resp "result" (PDict [])) as [res|e]; simpl; auto.
  destruct (get res "list" (PList [])) as [t|e]; simpl; auto.
  destruct (truthy t); simpl; auto.
  destruct (getitem0 t) as [first|e]; simpl; auto.
  destruct (get first "lastPrice" (PInt 0)) as [lp|e]; simpl; auto.
  destruct (to_float float_of_str lp) as [f|e]; simpl; auto.
Qed.

(** [place_order] has handled what it could: wrapping it in another handler
    changes nothing. *)
Lemma i_place_order_handled symbol side order_type qty price stop_loss take_profit category tif w :
  Interruptible.try_except
    (Interruptible.place_order session str_of_float str_of_exn symbol side order_type
       qty price stop_loss take_profit category tif)
    (fun e => Interruptible.ret (St := St) (error_dict (str_of_exn e))) w =
  Interruptible.place_order session str_of_float str_of_exn symbol side order_type
    qty price stop_loss take_profit category tif w.
Proof.
  destruct (i_place_order_run symbol side order_type qty price stop_loss take_profit
              category tif w) as [kw Hrun]. cbv zeta in Hrun.
  unfold Interruptible.try_except at 1. rewrite Hrun.
  destruct (fst (Interruptible.place_order_ St session kw (Interruptible.exchange w))) as [resp|[e|b]]; reflexivity.
Qed.

Lemma i_close_position_cases symbol category w :
  let out := Interruptible.get_positions_ St session (positions_query category) (Interruptible.exchange w) in
  let w1 := Interruptible.World (snd out)
              (Interruptible.calls w ++ [Interruptible.Call "get_positions" (positions_query category) (fst out)]) in
  (exists msg,
      (forall b, fst out <> Interruptible.Raises (Interruptible.SystemExiting b)) /\
      Interruptible.close_position session float_of_str str_of_float str_of_exn symbol category w =
        (Interruptible.Returns (error_dict msg), w1))
  \/ (exists b,
         fst out = Interruptible.Raises (Interruptible.SystemExiting b) /\
         Interruptible.close_position session float_of_str str_of_float str_of_exn symbol category w =
           (Interruptible.Raises (Interruptible.SystemExiting b), w1))
  \/ (exists resp side qty,
         fst out = Interruptible.Returns resp /\
         Interruptible.close_position session float_of_str str_of_float str_of_exn symbol category w =
           Interruptible.place_order session str_of_float str_of_exn symbol side "Market" qty
             None None None category "GTC" w1).
Proof.
  intros out w1.
  remember (Interruptible.close_position session float_of_str str_of_float str_of_exn symbol category w)
    as cp eqn:Hcp.
  unfold Interruptible.close_position in Hcp.
  unfold Interruptible.try_except at 1, Interruptible.bind at 1 in Hcp.
  rewrite i_get_positions_run in Hcp. fold out in Hcp. fold w1 in Hcp.
  destruct (fst out) as [resp|[e|b]] eqn:Eout; cbn [Interruptible.settle] in Hcp.
  - unfold Interruptible.bind, Interruptible.lift, Interruptible.ret in Hcp.
    repeat match type of Hcp with
           | context [match ?x with Ok _ => _ | Raise _ => _ end] =>
               destruct x; simpl in Hcp;
               [|left; eexists; split; [discriminate|exact Hcp]]
           | context [if ?b then _ else _] =>
               destruct b; simpl in Hcp;
               try (left; eexists; split; [discriminate|exact Hcp])
           end.
    all: right; right; exists resp; eexists; eexists; split; [reflexivity|].
    all: rewrite Hcp; apply i_place_order_handled.
  - left. simpl in Hcp. eexists. split; [discriminate|exact Hcp].
  - right. left. exists b. split; [reflexivity|exact Hcp].
Qed.




Lemma settle_cases handled (out : Interruptible.outcome pyval) name kwargs (cs : list Interruptible.call) (st : St) :
  (exists v, Interruptible.settle handled out = Interruptible.Returns v)
  \/ (exists b pre name' kwargs',
         Interruptible.settle handled out = Interruptible.Raises (Interruptible.SystemExiting b)
         /\ Interruptible.calls (Interruptible.World st (cs ++ [Interruptible.Call name kwargs out])) =
              cs ++ pre ++ [Interruptible.Call name' kwargs' (Interruptible.Raises (Interruptible.SystemExiting b))]).
Proof.
  destruct out as [v|[e|b]]; simpl; eauto.
  right. exists b, [], name, kwargs. split; reflexivity.
Qed.

(** X1. No operation lets an instance of [Exception] out: whatever the
    session answers or raises, an operation returns a value, or it passes on
    an exception from outside [Exception] that the session raised in the last
    call the operation made. *)
Theorem operations_raise_only_system_exits op w :
  (exists v,
      fst (Interruptible.perform session float_of_str str_of_float str_of_exn op w) = Interruptible.Returns v)
  \/ (exists b pre name kwargs,
         fst (Interruptible.perform session float_of_str str_of_float str_of_exn op w) =
           Interruptible.Raises (Interruptible.SystemExiting b)
         /\ Interruptible.calls (snd (Interruptible.perform session float_of_str str_of_float str_of_exn op w)) =
              Interruptible.calls w ++ pre ++ [Interruptible.Call name kwargs (Interruptible.Raises (Interruptible.SystemExiting b))]).
Proof.
  destruct op; cbn [Interruptible.perform].
  - rewrite i_get_account_info_run. cbn [fst snd]. apply settle_cases.
  - rewrite i_get_positions_run. cbn [fst snd]. apply settle_cases.
  - destruct (i_place_order_run symbol side order_type qty price stop_loss take_profit
                category time_in_force w) as [kw Hrun].
    cbv zeta in Hrun. rewrite Hrun. cbn [fst snd]. apply settle_cases.
  - destruct (i_close_position_cases symbol category w)
      as [[msg [_ H]]|[[b [Hb H]]|[resp [side [qty [Hok H]]]]]]; rewrite H; clear H.
    + left. eexists. reflexivity.
    + right. exists b, [], "get_positions", (positions_query category).
      cbn [fst snd Interruptible.calls]. rewrite Hb. split; reflexivity.
    + destruct (i_place_order_run symbol side "Market" qty None None None category "GTC"
                  (Interruptible.World
                     (snd (Interruptible.get_positions_ St session (positions_query category) (Interruptible.exchange w)))
                     (Interruptible.calls w ++
                      [Interruptible.Call "get_positions" (positions_query category)
                         (fst (Interruptible.get_positions_ St session (positions_query category)
                                 (Interruptible.exchange w)))]))) as [kw Hrun].
      cbv zeta in Hrun. rewrite Hrun. cbn [fst snd Interruptible.calls Interruptible.exchange].
      destruct (fst (Interruptible.place_order_ St session kw _)) as [v|[e|b]]; simpl; eauto.
      right. exists b. eexists. exists "place_order", kw.
      split; [reflexivity|]. rewrite <- app_assoc. reflexivity.
  - rewrite i_cancel_order_run. cbn [fst snd]. apply settle_cases.
  - rewrite i_get_ticker_price_run. cbn [fst snd]. apply settle_cases.
  - destruct (i_get_order_history_run symbol category limit w) as [kw Hrun].
    cbv zeta in Hrun. rewrite Hrun. cbn [fst snd]. apply settle_cases.
  - rewrite i_set_leverage_run. cbn [fst snd]. apply settle_cases.
Qed.

End InterruptibleFacts.



Section Agreement.

Context {St : Type}.
Variable session : Session St.
Variable float_of_str : string -> option float.
Variable str_of_float : float -> string.
Variable str_of_exn : exn -> string.

Lemma agrees_ret {A} (a : A) : Interruptible.agrees (St := St) (Interruptible.ret a) (ret a).
Proof. intros w. reflexivity. Qed.

Lemma agrees_lift {A} (r : result A) : Interruptible.agrees (St := St) (Interruptible.lift r) (lift r).
Proof. intros w. destruct r; reflexivity. Qed.

Lemma agrees_bind {A B} (c' : Interruptible.M St A) c (k' : A -> Interruptible.M St B) k :
  Interruptible.agrees c' c -> (forall a, Interruptible.agrees (k' a) (k a)) ->
  Interruptible.agrees (Interruptible.bind c' k') (bind c k).
Proof.
  intros Hc Hk w. unfold Interruptible.bind, bind. rewrite Hc. unfold Interruptible.of_run.
  destruct (c w) as [[a|e] w1]; simpl; [apply Hk|reflexivity].
Qed.

Lemma agrees_try {A} (c' : Interruptible.M St A) c (h' : exn -> Interruptible.M St A) h :
  Interruptible.agrees c' c -> (forall e, Interruptible.agrees (h' e) (h e)) ->
  Interruptible.agrees (Interruptible.try_except c' h') (try_except c h).
Proof.
  intros Hc Hh w. unfold Interruptible.try_except, try_except. rewrite Hc. unfold Interruptible.of_run.
  destruct (c w) as [[a|e] w1]; simpl; [reflexivity|apply Hh].
Qed.

Lemma agrees_invoke name m kwargs :
  Interruptible.agrees (St := St) (Interruptible.invoke name (Interruptible.of_method m) kwargs) (invoke name m kwargs).
Proof.
  intros w. unfold Interruptible.invoke, invoke, Interruptible.of_method, Interruptible.of_run, Interruptible.of_world. simpl.
  destruct (m kwargs (exchange w)) as [r st']. simpl.
  rewrite map_app. reflexivity.
Qed.

Ltac agree :=
  repeat first
    [ apply agrees_try | apply agrees_bind | apply agrees_invoke
    | apply agrees_lift | apply agrees_ret
    | match goal with
      | |- forall _, _ => intro
      | |- Interruptible.agrees (if ?b then _ else _) _ => destruct b
      end ].

Lemma agrees_place_order symbol side order_type qty price stop_loss take_profit category tif :
  Interruptible.agrees
    (fun w => Interruptible.place_order (Interruptible.of_session session) str_of_float str_of_exn symbol side
                order_type qty price stop_loss take_profit category tif w)
    (fun w => place_order session str_of_float str_of_exn symbol side
                order_type qty price stop_loss take_profit category tif w).
Proof. unfold Interruptible.place_order, place_order. cbv zeta. simpl. agree. Qed.

Lemma agrees_get_positions category :
  Interruptible.agrees (fun w => Interruptible.get_positions (Interruptible.of_session session) category w)
           (fun w => get_positions session category w).
Proof. unfold Interruptible.get_positions, get_positions. simpl. agree. Qed.

(** On a session that raises instances of [Exception] only, every operation
    here does what the operation of [BybitClient] does. *)
Lemma interruptible_agrees op :
  Interruptible.agrees
    (fun w => Interruptible.perform (Interruptible.of_session session) float_of_str str_of_float str_of_exn op w)
    (fun w => perform session float_of_str str_of_float str_of_exn op w).
Proof.
  destruct op; cbn [Interruptible.perform perform].
  - unfold Interruptible.get_account_info, get_account_info. simpl. agree.
  - apply agrees_get_positions.
  - apply agrees_place_order.
  - unfold Interruptible.close_position, close_position.
    apply agrees_try; [|agree]. apply agrees_bind; [apply agrees_get_positions|].
    agree.
  - unfold Interruptible.cancel_order, cancel_order. simpl. agree.
  - unfold Interruptible.get_ticker_price, get_ticker_price. simpl. agree.
  - unfold Interruptible.get_order_history, get_order_history. cbv zeta. simpl. agree.
  - unfold Interruptible.set_leverage, set_leverage. simpl. agree.
Qed.

End Agreement.

(** * The extractor: what the patterns match *)

Lemma in_all_chars c : In c all_chars.
Proof.
  unfold all_chars. rewrite <- (ascii_nat_embedding c).
  apply in_map. apply in_seq. pose proof (nat_ascii_bounded c). lia.
Qed.

Lemma for_all_chars (P : ascii -> bool) :
  forallb P all_chars = true -> forall c, P c = true.
Proof.
  intros H c. rewrite forallb_forall in H. apply H, in_all_chars.
Qed.

Lemma same_letter_sym c d : same_letter c d = same_letter d c.
Proof. unfold same_letter. apply Ascii.eqb_sym. Qed.

Lemma same_letter_trans c d e :
  same_letter c d = true -> same_letter c e = true -> same_letter d e = true.
Proof.
  unfold same_letter. intros H1 H2.
  apply Ascii.eqb_eq in H1, H2. apply Ascii.eqb_eq. congruence.
Qed.

Ltac by_all_chars :=
  intros; apply Bool.eqb_prop;
  match goal with
  | |- Bool.eqb ?l ?r = true =>
      match goal with
      | d : ascii |- _ =>
          pattern d;
          match goal with
          | |- ?P d => revert d; apply (for_all_chars (fun d => _))
          end
      end
  end; vm_compute; reflexivity.

Lemma same_letter_slash d : same_letter "/" d = Ascii.eqb d "/".
Proof. by_all_chars. Qed.

Lemma same_letter_dash d : same_letter "-" d = Ascii.eqb d "-".
Proof. by_all_chars. Qed.

Lemma not_u_separator d :
  (Ascii.eqb d "/" || Ascii.eqb d "-") && same_letter "U" d = false.
Proof. by_all_chars. Qed.

(** A capital and a character that is the same letter: the character in
    upper case is that capital. *)
Lemma upper_same_letter c d :
  capital c = true -> same_letter c d = true -> upper_char d = c.
Proof.
  intros Hc Hs. apply Ascii.eqb_eq.
  assert (H : forallb (fun c => forallb (fun d =>
              implb (capital c && same_letter c d) (Ascii.eqb (upper_char d) c))
              all_chars) all_chars = true) by (vm_compute; reflexivity).
  pose proof (for_all_chars _ (for_all_chars _ H c) d) as H'. simpl in H'.
  rewrite Hc, Hs in H'. exact H'.
Qed.

Section TextFacts.

Variable text : string.

Lemma run_lit {R} w : forall c i g (k : nat -> span -> option R),
  run text (lit c w) i g k =
    if spelled text i (String c w) then k (i + S (String.length w)) g else None.
Proof.
  induction w as [|c' w IH]; intros c i g k; simpl.
  - destruct (String.get i text) as [d|]; auto.
    rewrite andb_true_r, Nat.add_1_r. reflexivity.
  - destruct (String.get i text) as [d|]; auto.
    destruct (same_letter c d); simpl; auto.
    rewrite IH. simpl.
    replace (S (i + S (String.length w))) with (i + S (S (String.length w))) by lia.
    reflexivity.
Qed.

Lemma spelled_agree w1 : forall w2 i,
  spelled text i w1 = true -> spelled text i w2 = true -> agree w1 w2 = true.
Proof.
  induction w1 as [|a w1 IH]; intros [|b w2] i H1 H2; simpl in *; auto.
  destruct (String.get i text) as [d|]; [|discriminate].
  apply andb_true_iff in H1, H2. destruct H1 as [Ha H1], H2 as [Hb H2].
  rewrite (same_letter_trans d a b), (IH w2 (S i)); auto;
    now rewrite same_letter_sym.
Qed.

Lemma spelled_excludes w1 w2 i :
  agree w1 w2 = false -> spelled text i w1 = true -> spelled text i w2 = false.
Proof.
  intros Ha H1. destruct (spelled text i w2) eqn:H2; auto.
  rewrite (spelled_agree _ _ _ H1 H2) in Ha. discriminate.
Qed.


Lemma run_word {R} c w i g (k : nat -> span -> option R) :
  run text (word (String c w)) i g k =
    if spelled text i (String c w)
    then k (i + String.length (String c w)) g
    else None.
Proof. apply run_lit. Qed.

Ltac others_are_not_spelled E :=
  match type of E with
  | spelled _ _ ?w1 = true =>
      repeat match goal with
             | |- context [spelled text ?i ?w] =>
                 rewrite (spelled_excludes w1 w i eq_refl E)
             end
  end.

Lemma run_base_group {R} i g (k : nat -> span -> option R) :
  run text base_group i g k =
    match base_at text i with
    | Some b => k (i + String.length b) (Some (i, i + String.length b))
    | None => None
    end.
Proof.
  unfold base_group, base_at, base_assets. cbn [run find].
  rewrite !run_word.
  repeat match goal with
         | |- context [spelled text i ?w] =>
             destruct (spelled text i w) eqn:E;
             [ others_are_not_spelled E; cbn [String.length];
               match goal with |- context [k ?j ?s] => destruct (k j s) end;
               reflexivity
             | clear E ]
         end.
  reflexivity.
Qed.


Lemma run_quote i j g :
  let r := run text quote j g (fun j' g' => Some (Match i j' g')) in
  if quote_at text j then exists j', r = Some (Match i j' g) else r = None.
Proof.
  unfold quote, quote_at. cbn [run]. rewrite run_word. cbn [String.length].
  destruct (spelled text j "USD"); cbn [andb]; [|reflexivity].
  cbn [spelled]. replace (j + 4) with (S (j + 3)) by lia.
  destruct (String.get (j + 3) text) as [d|];
    [destruct (same_letter "T" d)|];
    destruct (boundary text (S (j + 3)));
    destruct (boundary text (j + 3)); simpl; eauto.
Qed.

Lemma separator_not_quote j d :
  String.get j text = Some d ->
  Ascii.eqb d "/" || Ascii.eqb d "-" = true ->
  quote_at text j = false.
Proof.
  intros G Sep. unfold quote_at. cbn [spelled]. rewrite G.
  pose proof (not_u_separator d) as H. rewrite Sep in H. simpl in H.
  rewrite H. reflexivity.
Qed.

Lemma run_quote_tail i j g :
  let r := run text quote_tail j g (fun j' g' => Some (Match i j' g')) in
  if quote_at text (if separator_at text j then S j else j)
  then exists j', r = Some (Match i j' g)
  else r = None.
Proof.
  unfold quote_tail, separator_at. cbn [run].
  pose proof (run_quote i j g) as Here. pose proof (run_quote i (S j) g) as Hnext.
  cbv zeta in Here, Hnext.
  destruct (String.get j text) as [d|] eqn:G; [|exact Here].
  cbn [existsb]. rewrite same_letter_slash, same_letter_dash, orb_false_r.
  destruct (Ascii.eqb d "/" || Ascii.eqb d "-") eqn:Sep; [|exact Here].
  rewrite (separator_not_quote j d G Sep) in Here.
  destruct (quote_at text (S j)).
  - destruct Hnext as [j' ->]. eauto.
  - rewrite Hnext. exact Here.
Qed.

Lemma match_at_pattern1 i :
  match quoted_token_at text i with
  | Some b => exists j, match_at text pattern1 i = Some (Match i j (Some (i, i + String.length b)))
  | None => match_at text pattern1 i = None
  end.
Proof.
  unfold match_at, pattern1, quoted_token_at. cbn [run].
  destruct (boundary text i); [|reflexivity].
  rewrite run_base_group.
  destruct (base_at text i) as [b|]; [|reflexivity].
  pose proof (run_quote_tail i (i + String.length b) (Some (i, i + String.length b))) as H.
  cbv zeta in H.
  destruct (quote_at text _); exact H.
Qed.

Lemma match_at_pattern2 i :
  match bare_token_at text i with
  | Some b => exists j, match_at text pattern2 i = Some (Match i j (Some (i, i + String.length b)))
  | None => match_at text pattern2 i = None
  end.
Proof.
  unfold match_at, pattern2, bare_token_at. cbn [run].
  destruct (boundary text i); [|reflexivity].
  rewrite run_base_group.
  destruct (base_at text i) as [b|]; [|reflexivity].
  destruct (boundary text (i + String.length b)); eauto.
Qed.

(** Searching with a pattern whose matches are the tokens of [token_at]
    finds the leftmost token. *)
Lemma search_from_leftmost r token_at :
  (forall i,
      match token_at i with
      | Some b => exists j, match_at text r i = Some (Match i j (Some (i, i + String.length b)))
      | None => match_at text r i = None
      end) ->
  forall n i,
    match leftmost token_at i n with
    | Some b => exists s j,
        search_from text r i n = Some (Match s j (Some (s, s + String.length b)))
        /\ token_at s = Some b
    | None => search_from text r i n = None
    end.
Proof.
  intros H. induction n as [|n IH]; intros i; simpl; specialize (H i).
  - destruct (token_at i) as [b|] eqn:T.
    + destruct H as [j ->]. eauto.
    + now rewrite H.
  - destruct (token_at i) as [b|] eqn:T.
    + destruct H as [j ->]. eauto.
    + rewrite H. apply IH.
Qed.


Lemma substring_step : forall (s : string) i n d,
  String.get i s = Some d ->
  String.substring i (S n) s = String d (String.substring (S i) n s).
Proof.
  induction s as [|c s IH]; intros [|i] n d H; simpl in *; try discriminate.
  - inversion H. subst. now destruct s.
  - rewrite (IH i n d H). reflexivity.
Qed.

Lemma substring_nothing : forall (s : string) i, String.substring i 0 s = EmptyString.
Proof. induction s as [|c s IH]; intros [|i]; simpl; auto. Qed.

Lemma upper_spelled w : forall i,
  capitals w = true -> spelled text i w = true ->
  upper (String.substring i (String.length w) text) = w.
Proof.
  induction w as [|c w IH]; intros i Hc Hs; simpl in *.
  - now rewrite substring_nothing.
  - destruct (String.get i text) as [d|] eqn:G; [|discriminate].
    apply andb_true_iff in Hc, Hs. destruct Hc as [Hc Hcs], Hs as [Hd Hs].
    rewrite (substring_step text i _ d G). simpl.
    rewrite (upper_same_letter c d Hc Hd), (IH (S i) Hcs Hs). reflexivity.
Qed.

Lemma base_at_some i b :
  base_at text i = Some b -> In b base_assets /\ spelled text i b = true.
Proof. apply find_some. Qed.

Lemma quoted_token_base i b : quoted_token_at text i = Some b -> base_at text i = Some b.
Proof.
  unfold quoted_token_at. destruct (boundary text i); [|discriminate].
  destruct (base_at text i) as [b'|]; [|discriminate].
  destruct (quote_at text _); now intros [= ->].
Qed.

Lemma bare_token_base i b : bare_token_at text i = Some b -> base_at text i = Some b.
Proof.
  unfold bare_token_at. destruct (boundary text i); [|discriminate].
  destruct (base_at text i) as [b'|]; [|discriminate].
  destruct (boundary text _); now intros [= ->].
Qed.

Lemma base_assets_capitals b : In b base_assets -> capitals b = true.
Proof.
  intros H. assert (F : forallb capitals base_assets = true) by reflexivity.
  rewrite forallb_forall in F. auto.
Qed.

Lemma group1_token s j b :
  base_at text s = Some b ->
  group1 text (Match s j (Some (s, s + String.length b))) =
    Some (String.substring s (String.length b) text)
  /\ upper (String.substring s (String.length b) text) = b.
Proof.
  intros Hb. apply base_at_some in Hb. destruct Hb as [Hin Hs].
  unfold group1. simpl. replace (s + String.length b - s) with (String.length b) by lia.
  split; [reflexivity|].
  apply upper_spelled; auto using base_assets_capitals.
Qed.

Lemma leftmost_some token_at : forall n i b,
  leftmost token_at i n = Some b -> exists s, token_at s = Some b.
Proof.
  induction n as [|n IH]; intros i b; simpl;
    destruct (token_at i) eqn:T; intros H; try discriminate; eauto;
    inversion H; subst; eauto.
Qed.

Lemma extractor_follows_tokens :
  parse_crypto_symbol text =
    Ok (option_map (fun b => (b ++ "USDT")%string) (deciding_token text)).
Proof.
  unfold parse_crypto_symbol, patterns, deciding_token, search. cbn [first_match].
  unfold search.
  pose proof (search_from_leftmost pattern1 (quoted_token_at text) match_at_pattern1
                (String.length text) 0) as H1.
  destruct (leftmost (quoted_token_at text) 0 (String.length text)) as [b|].
  - destruct H1 as [s [j [-> Hq]]].
    destruct (group1_token s j b (quoted_token_base _ _ Hq)) as [-> ->]. reflexivity.
  - rewrite H1.
    pose proof (search_from_leftmost pattern2 (bare_token_at text) match_at_pattern2
                  (String.length text) 0) as H2.
    destruct (leftmost (bare_token_at text) 0 (String.length text)) as [b|].
    + destruct H2 as [s [j [-> Hq]]].
      destruct (group1_token s j b (bare_token_base _ _ Hq)) as [-> ->]. reflexivity.
    + rewrite H2. reflexivity.
Qed.

Lemma matches_iff_token r token_at i :
  match token_at i with
  | Some b => exists j, match_at text r i = Some (Match i j (Some (i, i + String.length b)))
  | None => match_at text r i = None
  end ->
  match_at text r i <> None <-> token_at i <> None.
Proof.
  destruct (token_at i) as [b|].
  - intros [j ->]. split; discriminate.
  - intros ->. tauto.
Qed.

(** C7, amended. Pattern 1 matches at a position exactly when a base asset
    starts a word there and carries a quote asset (USD or USDT, after at most
    one separator); pattern 2 matches exactly when a base asset is a whole word
    there. The patterns are tried in that order: the leftmost quoted token
    decides the result, and only a text without one is decided by its leftmost
    bare token. *)
Theorem parse_crypto_symbol_prefers_quoted_token :
  (forall i, match_at text pattern1 i <> None <-> quoted_token_at text i <> None)
  /\ (forall i, match_at text pattern2 i <> None <-> bare_token_at text i <> None)
  /\ parse_crypto_symbol text =
       Ok (option_map (fun b => (b ++ "USDT")%string) (deciding_token text)).
Proof.
  split; [|split].
  - intros i. apply matches_iff_token, match_at_pattern1.
  - intros i. apply matches_iff_token, match_at_pattern2.
  - apply extractor_follows_tokens.
Qed.

Lemma deciding_token_base b : deciding_token text = Some b -> In b base_assets.
Proof.
  unfold deciding_token.
  destruct (leftmost (quoted_token_at text) 0 (String.length text)) as [b'|] eqn:L.
  - intros [= ->]. apply leftmost_some in L. destruct L as [s Hs].
    apply quoted_token_base, base_at_some in Hs. tauto.
  - intros L2. apply leftmost_some in L2. destruct L2 as [s Hs].
    apply bare_token_base, base_at_some in Hs. tauto.
Qed.

End TextFacts.

(** C6. The extractor is idempotent: a symbol it returns is returned again
    when the extractor is applied to it; in particular each base asset
    followed by "USDT" is a fixed point. *)
Theorem parse_crypto_symbol_idempotent x s :
  parse_crypto_symbol x = Ok (Some s) ->
  parse_crypto_symbol s = Ok (Some s)
  /\ Forall (fun b => parse_crypto_symbol (b ++ "USDT") = Ok (Some (b ++ "USDT")%string))
            base_assets.
Proof.
  rewrite extractor_follows_tokens.
  destruct (deciding_token x) as [b|] eqn:D; [|discriminate].
  intros [= <-]. apply deciding_token_base in D.
  assert (F : Forall (fun b => parse_crypto_symbol (b ++ "USDT")
                               = Ok (Some (b ++ "USDT")%string)) base_assets).
  { unfold base_assets.
    repeat (apply Forall_cons; [vm_compute; reflexivity|]). apply Forall_nil. }
  split; [|exact F].
  rewrite Forall_forall in F. exact (F b D).
Qed.

(** C5. For each base asset [b], the extractor returns [b ++ "USDT"] on [b],
    on [b ++ "USDT"] and on [b ++ "-USD"]. *)
Theorem parse_crypto_symbol_base_assets :
  Forall (fun b =>
            parse_crypto_symbol b = Ok (Some (b ++ "USDT")%string)
            /\ parse_crypto_symbol (b ++ "USDT") = Ok (Some (b ++ "USDT")%string)
            /\ parse_crypto_symbol (b ++ "-USD") = Ok (Some (b ++ "USDT")%string))
         base_assets.
Proof.
  unfold base_assets.
  repeat (apply Forall_cons; [repeat split; vm_compute; reflexivity|]).
  apply Forall_nil.
Qed.

Lemma parse_crypto_symbol_idempotent_witness :
  parse_crypto_symbol "buy btc-usd now" = Ok (Some "BTCUSDT")
  /\ parse_crypto_symbol "BTCUSDT" = Ok (Some "BTCUSDT").
Proof.
  split; [reflexivity|].
  exact (proj1 (parse_crypto_symbol_idempotent "buy btc-usd now" "BTCUSDT" eq_refl)).
Defined.

(** C7 as stated fails. In "BTC ETHUSDT" the leftmost whole-word base asset
    is BTC, yet the extractor returns "ETHUSDT": pattern 1 asks for the quote
    asset, so it passes over the bare BTC, as it finds no match in "BTC". *)
Lemma leftmost_bare_token_does_not_decide :
  leftmost (bare_token_at "BTC ETHUSDT") 0 (String.length "BTC ETHUSDT") = Some "BTC"
  /\ search "BTC ETHUSDT" pattern1 <> None
  /\ parse_crypto_symbol "BTC ETHUSDT" = Ok (Some "ETHUSDT")
  /\ parse_crypto_symbol "BTC ETHUSDT" <> Ok (Some "BTCUSDT")
  /\ search "BTC" pattern1 = None.
Proof.
  repeat split; try (vm_compute; reflexivity); vm_compute; discriminate.
Qed.

(** * The extractor: case, absence and whole words *)

Lemma is_word_lower c : is_word (lower c) = is_word c.
Proof. by_all_chars. Qed.

Lemma same_letter_word c d : same_letter c d = true -> is_word c = is_word d.
Proof.
  unfold same_letter. intros H. apply Ascii.eqb_eq in H.
  rewrite <- (is_word_lower c), <- (is_word_lower d). now rewrite H.
Qed.

Lemma same_letter_left a c d :
  same_letter c d = true -> same_letter a c = same_letter a d.
Proof.
  unfold same_letter. intros H. apply Ascii.eqb_eq in H. now rewrite H.
Qed.

Lemma find_same {A} (f g : A -> bool) (l : list A) :
  (forall a, f a = g a) -> find f l = find g l.
Proof.
  intros H. induction l as [|a l IH]; simpl; [reflexivity|].
  rewrite H, IH. reflexivity.
Qed.

Section CaseVariants.

Variables x y : string.
Hypothesis Hxy : same_text x y = true.

Lemma same_text_get : forall i,
  match String.get i x, String.get i y with
  | Some c, Some d => same_letter c d = true
  | None, None => True
  | _, _ => False
  end.
Proof.
  revert y Hxy. induction x as [|c x' IH]; intros [|d y'] H i; simpl in *;
    try discriminate; auto.
  apply andb_true_iff in H. destruct H as [Hc H].
  destruct i as [|i]; [exact Hc|]. apply IH, H.
Qed.

Lemma same_text_length : String.length x = String.length y.
Proof.
  revert y Hxy. induction x as [|c x' IH]; intros [|d y'] H; simpl in *;
    try discriminate; auto.
  apply andb_true_iff in H. destruct H as [_ H]. f_equal. apply IH, H.
Qed.

Lemma same_text_word_at i : word_at x i = word_at y i.
Proof.
  unfold word_at. pose proof (same_text_get i) as H.
  destruct (String.get i x), (String.get i y); try tauto.
  now apply same_letter_word.
Qed.

Lemma same_text_boundary i : boundary x i = boundary y i.
Proof.
  unfold boundary. rewrite same_text_word_at.
  destruct i; [reflexivity|]. now rewrite same_text_word_at.
Qed.

Lemma same_text_spelled w : forall i, spelled x i w = spelled y i w.
Proof.
  induction w as [|a w IH]; intros i; simpl; [reflexivity|].
  pose proof (same_text_get i) as H.
  destruct (String.get i x), (String.get i y); try tauto.
  now rewrite IH, (same_letter_left a _ _ H).
Qed.

Lemma same_text_separator i : separator_at x i = separator_at y i.
Proof.
  unfold separator_at. pose proof (same_text_get i) as H.
  destruct (String.get i x), (String.get i y); try tauto.
  rewrite <- !same_letter_slash, <- !same_letter_dash.
  now rewrite (same_letter_left "/" _ _ H), (same_letter_left "-" _ _ H).
Qed.

Lemma same_text_base_at i : base_at x i = base_at y i.
Proof.
  unfold base_at. apply find_same. intros w. apply same_text_spelled.
Qed.

Lemma same_text_quoted i : quoted_token_at x i = quoted_token_at y i.
Proof.
  unfold quoted_token_at, quote_at.
  rewrite same_text_boundary, same_text_base_at.
  destruct (boundary y i); [|reflexivity].
  destruct (base_at y i) as [b|]; [|reflexivity].
  rewrite same_text_separator, !same_text_spelled, !same_text_boundary. reflexivity.
Qed.

Lemma same_text_bare i : bare_token_at x i = bare_token_at y i.
Proof.
  unfold bare_token_at.
  rewrite same_text_boundary, same_text_base_at.
  destruct (boundary y i); [|reflexivity].
  destruct (base_at y i) as [b|]; [|reflexivity].
  now rewrite same_text_boundary.
Qed.

End CaseVariants.

Lemma leftmost_ext f g : (forall i, f i = g i) -> forall n i, leftmost f i n = leftmost g i n.
Proof.
  intros H. induction n as [|n IH]; intros i; simpl; rewrite H; auto.
  destruct (g i); auto.
Qed.

(** X15. The extractor ignores case: two texts that differ only in the case
    of their letters give the same result. *)
Theorem parse_crypto_symbol_ignores_case x y :
  same_text x y = true -> parse_crypto_symbol x = parse_crypto_symbol y.
Proof.
  intros H. rewrite !extractor_follows_tokens. unfold deciding_token.
  rewrite (same_text_length x y H).
  rewrite (leftmost_ext _ _ (same_text_quoted x y H)).
  rewrite (leftmost_ext _ _ (same_text_bare x y H)). reflexivity.
Qed.

Lemma parse_crypto_symbol_ignores_case_witness :
  parse_crypto_symbol "Buy eth/usdt now" = parse_crypto_symbol "BUY ETH/USDT NOW".
Proof. apply parse_crypto_symbol_ignores_case. reflexivity. Defined.

Lemma leftmost_none f : forall n i,
  leftmost f i n = None <-> (forall k, k <= n -> f (i + k) = None).
Proof.
  induction n as [|n IH]; intros i; simpl.
  - destruct (f i) eqn:E; split; intros H; try discriminate.
    + specialize (H 0 (le_n 0)). rewrite Nat.add_0_r, E in H. discriminate.
    + intros k Hk. assert (k = 0) by lia. subst. now rewrite Nat.add_0_r.
    + reflexivity.
  - destruct (f i) eqn:E.
    + split; [discriminate|]. intros H.
      specialize (H 0 (Nat.le_0_l _)). rewrite Nat.add_0_r, E in H. discriminate.
    + rewrite IH. split; intros H k Hk.
      * destruct k as [|k]; [now rewrite Nat.add_0_r|].
        rewrite Nat.add_succ_r. apply (H k). lia.
      * specialize (H (S k)). rewrite Nat.add_succ_r in H. apply H. lia.
Qed.

Lemma get_inside : forall (s : string) i d,
  String.get i s = Some d -> i < String.length s.
Proof.
  induction s as [|c s IH]; intros [|i] d H; simpl in *; try discriminate; try lia.
  apply IH in H. lia.
Qed.

Lemma base_at_inside text i b : base_at text i = Some b -> i < String.length text.
Proof.
  intros H. apply base_at_some in H. destruct H as [Hin Hs].
  assert (Hb : exists c w, b = String c w).
  { unfold base_assets in Hin. simpl in Hin.
    repeat (destruct Hin as [<-|Hin]; [eauto|]). destruct Hin. }
  destruct Hb as [c [w ->]]. simpl in Hs.
  destruct (String.get i text) as [d|] eqn:G; [|discriminate].
  now apply get_inside in G.
Qed.

Lemma no_token_outside text token_at :
  (forall i b, token_at i = Some b -> base_at text i = Some b) ->
  leftmost token_at 0 (String.length text) = None <-> (forall i, token_at i = None).
Proof.
  intros Hb. rewrite leftmost_none. split; intros H.
  - intros i. destruct (token_at i) as [b|] eqn:T; [|reflexivity].
    rewrite <- T. apply Hb, base_at_inside in T. apply (H i). simpl. lia.
  - intros k _. apply H.
Qed.

(** X16. The extractor returns nothing exactly when no position of the text
    holds a quoted token or a bare token. *)
Theorem parse_crypto_symbol_nothing_iff_no_token text :
  parse_crypto_symbol text = Ok None <->
  forall i, quoted_token_at text i = None /\ bare_token_at text i = None.
Proof.
  rewrite extractor_follows_tokens. unfold deciding_token.
  pose proof (no_token_outside text _ (quoted_token_base text)) as Hq.
  pose proof (no_token_outside text _ (bare_token_base text)) as Hb.
  destruct (leftmost (quoted_token_at text) 0 (String.length text)) as [b|] eqn:Lq.
  - split; [discriminate|]. intros H.
    assert (Some b = None) by (apply Hq; intros i; apply H). discriminate.
  - destruct (leftmost (bare_token_at text) 0 (String.length text)) as [b|] eqn:Lb.
    + split; [discriminate|]. intros H.
      assert (Some b = None) by (apply Hb; intros i; apply H). discriminate.
    + split; [|reflexivity]. intros _ i. split; [now apply Hq|now apply Hb].
Qed.

(** X17. The extractor never raises, and on text of code points below 256 a
    symbol it returns is one of the ten base assets followed by "USDT". *)
Theorem parse_crypto_symbol_result_shape text :
  exists r,
    parse_crypto_symbol text = Ok r
    /\ forall s, r = Some s -> exists b, In b base_assets /\ s = (b ++ "USDT")%string.
Proof.
  rewrite extractor_follows_tokens. eexists. split; [reflexivity|].
  intros s. destruct (deciding_token text) as [b|] eqn:D; [|discriminate].
  intros [= <-]. exists b. split; [|reflexivity]. now apply deciding_token_base in D.
Qed.

Lemma word_not_separator d :
  is_word d && (Ascii.eqb d "/" || Ascii.eqb d "-") = false.
Proof. by_all_chars. Qed.

Lemma get_some : forall (s : string) i,
  i < String.length s -> exists d, String.get i s = Some d.
Proof.
  induction s as [|c s IH]; intros [|i] H; simpl in *; try lia; eauto.
  apply IH. lia.
Qed.

Lemma get_none (s : string) i : String.length s <= i -> String.get i s = None.
Proof.
  intros H. destruct (String.get i s) as [d|] eqn:G; [|reflexivity].
  apply get_inside in G. lia.
Qed.

Lemma spelled_shift c text w : forall i,
  spelled (String c text) (S i) w = spelled text i w.
Proof. induction w as [|a w IH]; intros i; simpl; [reflexivity|]. now rewrite IH. Qed.

Lemma spelled_app text w1 : forall w2 i,
  spelled text i (w1 ++ w2) =
    spelled text i w1 && spelled text (i + String.length w1) w2.
Proof.
  induction w1 as [|a w1 IH]; intros w2 i; simpl.
  - now rewrite Nat.add_0_r.
  - destruct (String.get i text) as [d|]; [|reflexivity].
    rewrite IH, andb_assoc. now replace (S i + String.length w1) with (i + S (String.length w1)) by lia.
Qed.

Lemma same_text_spelled_all : forall text w,
  same_text text w = true <->
  spelled text 0 w = true /\ String.length text = String.length w.
Proof.
  induction text as [|c text IH]; intros [|a w]; simpl.
  - tauto.
  - split; [discriminate|]. intros [H _]. discriminate.
  - split; [discriminate|]. intros [_ H]. discriminate.
  - rewrite spelled_shift, (same_letter_sym a c), !andb_true_iff, IH.
    split; intros H; repeat split; try tauto; lia.
Qed.

Lemma agree_base_assets b b' :
  In b base_assets -> In b' base_assets -> agree b b' = true -> b = b'.
Proof.
  unfold base_assets. simpl. intros H H'.
  repeat (destruct H as [<-|H]; [repeat (destruct H' as [<-|H']; [vm_compute; intros E; (reflexivity || discriminate E)|]); destruct H'|]).
  destruct H.
Qed.

Lemma base_at_spelled text i b :
  In b base_assets -> spelled text i b = true -> base_at text i = Some b.
Proof.
  intros Hin Hs. destruct (base_at text i) as [b'|] eqn:E.
  - apply base_at_some in E. destruct E as [Hin' Hs'].
    f_equal. apply agree_base_assets; auto. eapply spelled_agree; eauto.
  - unfold base_at in E. apply (find_none _ _ E) in Hin. congruence.
Qed.

Lemma length_append : forall s1 s2 : string,
  String.length (s1 ++ s2) = String.length s1 + String.length s2.
Proof. induction s1 as [|c s1 IH]; intros s2; simpl; [reflexivity|]. now rewrite IH. Qed.

Lemma base_nonempty b : In b base_assets -> 0 < String.length b.
Proof.
  unfold base_assets. simpl. intros H.
  repeat (destruct H as [<-|H]; [simpl; lia|]). destruct H.
Qed.

Section OneWord.

Variable text : string.
Hypothesis Hword : all_word text = true.

Lemma all_word_get : forall i d, String.get i text = Some d -> is_word d = true.
Proof.
  revert Hword. induction text as [|c s IH]; intros H [|i] d G; simpl in *;
    try discriminate; apply andb_true_iff in H; destruct H as [Hc H].
  - now inversion G; subst.
  - eapply IH; eauto.
Qed.

Lemma word_at_one_word i : word_at text i = Nat.ltb i (String.length text).
Proof.
  unfold word_at. destruct (Nat.ltb_spec i (String.length text)) as [H|H].
  - destruct (get_some text i H) as [d G]. rewrite G. eapply all_word_get; eauto.
  - now rewrite get_none.
Qed.

Lemma boundary_one_word i :
  boundary text i =
    match i with
    | 0 => Nat.ltb 0 (String.length text)
    | S _ => Nat.eqb i (String.length text)
    end.
Proof.
  unfold boundary. rewrite word_at_one_word. destruct i as [|j]; [reflexivity|].
  rewrite word_at_one_word.
  destruct (Nat.ltb_spec j (String.length text)),
           (Nat.ltb_spec (S j) (String.length text)),
           (Nat.eqb_spec (S j) (String.length text)); simpl; auto; lia.
Qed.

Lemma separator_one_word i : separator_at text i = false.
Proof.
  unfold separator_at. destruct (String.get i text) as [d|] eqn:G; [|reflexivity].
  pose proof (word_not_separator d) as H.
  now rewrite (all_word_get i d G) in H.
Qed.

Lemma token_only_at_start token_at :
  (forall i b, token_at i = Some b -> base_at text i = Some b /\ boundary text i = true) ->
  leftmost token_at 0 (String.length text) = token_at 0.
Proof.
  intros H. assert (Hrest : forall i, token_at (S i) = None).
  { intros i. destruct (token_at (S i)) as [b|] eqn:T; [|reflexivity].
    destruct (H _ _ T) as [Hb Hbd]. apply base_at_inside in Hb.
    rewrite boundary_one_word in Hbd. apply Nat.eqb_eq in Hbd. lia. }
  destruct (String.length text) as [|n]; simpl; destruct (token_at 0); auto.
  apply leftmost_none. intros k _. apply Hrest.
Qed.

Lemma quoted_token_boundary i b :
  quoted_token_at text i = Some b -> base_at text i = Some b /\ boundary text i = true.
Proof.
  intros H. split; [now apply quoted_token_base|].
  unfold quoted_token_at in H. now destruct (boundary text i).
Qed.

Lemma bare_token_boundary i b :
  bare_token_at text i = Some b -> base_at text i = Some b /\ boundary text i = true.
Proof.
  intros H. split; [now apply bare_token_base|].
  unfold bare_token_at in H. now destruct (boundary text i).
Qed.

Lemma deciding_token_one_word :
  deciding_token text =
    match quoted_token_at text 0 with
    | Some b => Some b
    | None => bare_token_at text 0
    end.
Proof.
  unfold deciding_token.
  now rewrite (token_only_at_start _ quoted_token_boundary),
              (token_only_at_start _ bare_token_boundary).
Qed.


Lemma boundary_inside_word i :
  0 < i -> boundary text i = Nat.eqb i (String.length text).
Proof. intros H. rewrite boundary_one_word. destruct i; [lia|reflexivity]. Qed.

Lemma bare_one_word b :
  In b base_assets ->
  bare_token_at text 0 = Some b <-> same_text text b = true.
Proof.
  intros Hin. pose proof (base_nonempty b Hin) as Hb.
  rewrite same_text_spelled_all. unfold bare_token_at.
  rewrite (boundary_one_word 0). simpl (0 + _). split.
  - destruct (Nat.ltb 0 (String.length text)); [|discriminate].
    destruct (base_at text 0) as [b'|] eqn:E; [|discriminate].
    apply base_at_some in E. destruct E as [Hin' Es].
    rewrite (boundary_inside_word _ (base_nonempty b' Hin')).
    destruct (Nat.eqb_spec (String.length b') (String.length text)); [|discriminate].
    intros [= <-]. split; [exact Es|lia].
  - intros [Hs Hl]. rewrite (base_at_spelled text 0 b Hin Hs).
    rewrite (boundary_inside_word _ Hb), <- Hl, Nat.eqb_refl.
    destruct (Nat.ltb_spec 0 (String.length text)); [reflexivity|lia].
Qed.

Lemma quote_one_word j :
  0 < j ->
  quote_at text j = true <->
  spelled text j "USD" = true
  /\ (j + 3 = String.length text
      \/ (spelled text (j + 3) "T" = true /\ j + 4 = String.length text)).
Proof.
  intros Hj. unfold quote_at.
  rewrite !boundary_inside_word by lia.
  rewrite andb_true_iff, orb_true_iff, andb_true_iff, !Nat.eqb_eq. tauto.
Qed.

Lemma quoted_one_word b :
  In b base_assets ->
  quoted_token_at text 0 = Some b <->
  same_text text (b ++ "USD") = true \/ same_text text (b ++ "USDT") = true.
Proof.
  intros Hin. pose proof (base_nonempty b Hin) as Hb.
  rewrite !same_text_spelled_all, !length_append.
  change "USDT" with ("USD" ++ "T")%string.
  rewrite !spelled_app. simpl (0 + _). simpl (String.length _).
  rewrite !andb_true_iff.
  unfold quoted_token_at. rewrite (boundary_one_word 0). simpl (0 + _). split.
  - destruct (Nat.ltb 0 (String.length text)); [|discriminate].
    destruct (base_at text 0) as [b'|] eqn:E; [|discriminate].
    rewrite separator_one_word.
    destruct (quote_at text (String.length b')) eqn:Q; [|discriminate].
    intros [= <-]. apply base_at_some in E. destruct E as [_ Es].
    apply (quote_one_word _ Hb) in Q. destruct Q as [Hq [Hn|[Ht Hn]]].
    + left. repeat split; auto; lia.
    + right. repeat split; auto; simpl; lia.
  - intros H.
    assert (Hs : spelled text 0 b = true) by tauto.
    assert (Hq : quote_at text (String.length b) = true).
    { apply (quote_one_word _ Hb). simpl in H.
      destruct H as [[[_ Hq] Hl]|[[_ [Hq Ht]] Hl]]; (split; [exact Hq|]).
      - left. lia.
      - right. split; [exact Ht|lia]. }
    rewrite (base_at_spelled text 0 b Hin Hs), separator_one_word, Hq.
    destruct (Nat.ltb_spec 0 (String.length text)); [reflexivity|].
    simpl in H. destruct H as [[_ Hl]|[_ Hl]]; lia.
Qed.

(** X18. On a text that is one word (word characters only) the extractor
    returns a symbol exactly when the whole text is a base asset, or a base
    asset followed directly by USD or USDT, in any case: a base asset inside a
    longer word is not extracted. *)
Theorem parse_crypto_symbol_one_word s :
  parse_crypto_symbol text = Ok (Some s) <->
  exists b,
    In b base_assets /\ s = (b ++ "USDT")%string
    /\ (same_text text b = true
        \/ same_text text (b ++ "USD") = true
        \/ same_text text (b ++ "USDT") = true).
Proof.
  rewrite extractor_follows_tokens, deciding_token_one_word. split.
  - destruct (quoted_token_at text 0) as [b|] eqn:Q.
    + intros [= <-]. exists b.
      pose proof (quoted_token_base _ _ _ Q) as Hb. apply base_at_some in Hb.
      split; [tauto|]. split; [reflexivity|]. right.
      apply quoted_one_word; tauto.
    + destruct (bare_token_at text 0) as [b|] eqn:B; [|discriminate].
      intros [= <-]. exists b.
      pose proof (bare_token_base _ _ _ B) as Hb. apply base_at_some in Hb.
      split; [tauto|]. split; [reflexivity|]. left.
      apply bare_one_word; tauto.
  - intros [b [Hin [-> [H|H]]]].
    + apply (bare_one_word b Hin) in H.
      destruct (quoted_token_at text 0) as [b'|] eqn:Q; [|now rewrite H].
      apply quoted_token_base in Q. apply bare_token_base in H.
      rewrite Q in H. now inversion H.
    + apply (quoted_one_word b Hin) in H. now rewrite H.
Qed.

End OneWord.

Lemma parse_crypto_symbol_one_word_witness : parse_crypto_symbol "dogeusd" = Ok (Some "DOGEUSDT").
Proof.
  apply (proj2 (parse_crypto_symbol_one_word "dogeusd" eq_refl "DOGEUSDT")).
  exists "DOGE". split; [simpl; tauto|]. split; [reflexivity|].
  right. left. reflexivity.
Defined.
